(** * SLPC legal assistant: corpus structurer and semantic index

    A shallow embedding of the retrieval core of the repository:
    - [slpc_pdf_extractor.py]: [parse_slpc_sections], [save_to_json];
    - [slpc_vectordb_builder.py]: [load_slpc_data], [prepare_documents],
      [build_slpc_vectordb];
    - [tools/slpc_sections_search_tool.py]: [search_slpc_sections].

    Conventions of the model.
    - A Python [str] is a [string]; each [ascii] stands for the code point
      of the same number, so the model covers text over the code points
      0..255.  On that range the character classes below are the ones of
      the interpreter ([str.isspace], [\s], [\d], case folding).  Beyond
      it the interpreter knows more: [re.IGNORECASE] also takes U+017F
      for s, U+0130 and U+0131 for i and U+212A for k, and [\d] and
      [int] take every decimal digit.  Statements that name the
      characters of a heading say that they are about the range of the
      model.
    - Python integers are [Z]; [int(...)] of a digit string is modelled
      without the interpreter's optional limit on the number of digits.
    - [print] calls write to the console only and are left out.
    - The [json] module is modelled on the values the corpus file can
      hold ([Module Json]); the files are a map from paths to texts.
    - The vector store and the embedding model are libraries outside the
      repository: the store is an interface ([VectorStore]) and the
      statements about the index say which of its behaviours they rely
      on. *)

From Stdlib Require Import ZArith NArith Bool Ascii String List Lia.
From Stdlib Require Import DecimalString DecimalFacts DecimalPos DecimalZ.
From stdpp Require Import base option list strings gmap.
Import ListNotations.
Local Open Scope string_scope.
Local Open Scope list_scope.
Set Warnings "-register-all".

(** ** Characters *)

Definition code (c : ascii) : N := N_of_ascii c.

(** [str.isspace] on one character, which is also the class [\s] of [re]:
    TAB, LF, VT, FF, CR, FS, GS, RS, US, SPACE, NEL and NBSP. *)
Definition is_space (c : ascii) : bool :=
  let n := code c in
  ((9 <=? n) && (n <=? 13) || (28 <=? n) && (n <=? 32)
   || (n =? 133) || (n =? 160))%N.

(** The class [\d]: the decimal digits. *)
Definition is_digit (c : ascii) : bool :=
  let n := code c in ((48 <=? n) && (n <=? 57))%N.

(** Lower-casing of one character, as [re.IGNORECASE] applies it. *)
Definition lower (c : ascii) : ascii :=
  let n := code c in
  if ((65 <=? n) && (n <=? 90)
      || (192 <=? n) && (n <=? 222) && negb (n =? 215))%N
  then ascii_of_N (n + 32) else c.

Definition nl_char : ascii := "010"%char.
Definition nl : string := String nl_char "".

(** ** Strings: [strip], [split], [int] *)

Fixpoint lstrip (s : string) : string :=
  match s with
  | String c s' => if is_space c then lstrip s' else s
  | EmptyString => EmptyString
  end.

Fixpoint rstrip (s : string) : string :=
  match s with
  | String c s' =>
      match rstrip s' with
      | EmptyString => if is_space c then EmptyString else String c EmptyString
      | t => String c t
      end
  | EmptyString => EmptyString
  end.

(** [s.strip()] *)
Definition strip (s : string) : string := rstrip (lstrip s).

(** [text.split('\n')]: the pieces between the newlines, never an empty
    list. *)
Fixpoint split_nl (s : string) : list string :=
  match s with
  | EmptyString => [EmptyString]
  | String c s' =>
      if Ascii.eqb c nl_char then EmptyString :: split_nl s'
      else match split_nl s' with
           | l :: ls => String c l :: ls
           | [] => [String c EmptyString]
           end
  end.

(** Truth value of a Python string: non-empty. *)
Definition truthy (s : string) : bool :=
  match s with EmptyString => false | String _ _ => true end.

Definition digit_val (c : ascii) : Z := Z.of_N (code c) - 48.

Fixpoint int_acc (acc : Z) (s : string) : Z :=
  match s with
  | EmptyString => acc
  | String c s' => int_acc (10 * acc + digit_val c) s'
  end.

(** [int(s)] for a string of decimal digits. *)
Definition int_of_digits (s : string) : Z := int_acc 0 s.

(** ** A backtracking matcher for the patterns of the extractor

    [re.match] anchors at the start of the subject and explores the
    pattern left to right: quantifiers are greedy and give characters back
    one at a time, alternatives are tried in order, and the first complete
    match wins.  The patterns of the program only repeat one-character
    items, which is what [RRep] covers. *)

Module Re.

(** Members of a bracketed set. *)
Inductive item :=
| IChar (c : ascii)
| ISpace
| IDigit.

(** One-character matchers. *)
Inductive atom :=
| ALit (c : ascii)
| ASet (negated : bool) (items : list item).

Inductive re :=
| REps
| RAtom (a : atom)
| RRep (min : nat) (a : atom)     (* [a*] is [RRep 0 a], [a+] is [RRep 1 a] *)
| RCat (r1 r2 : re)
| RAlt (r1 r2 : re)
| RGroup (n : nat) (r : re).

(** Captured groups, most recent binding first. *)
Definition caps := list (nat * string).

Section Matcher.
Variable ignorecase : bool.

Definition char_eq (p x : ascii) : bool :=
  if ignorecase then Ascii.eqb (lower p) (lower x) else Ascii.eqb p x.

Definition item_matches (it : item) (x : ascii) : bool :=
  match it with
  | IChar c => char_eq c x
  | ISpace => is_space x
  | IDigit => is_digit x
  end.

Definition atom_matches (a : atom) (x : ascii) : bool :=
  match a with
  | ALit c => char_eq c x
  | ASet negated items =>
      xorb negated (existsb (fun it => item_matches it x) items)
  end.

(** Greedy repetition of [a], at least [min] times: take the longest
    run first and fall back to shorter ones while the rest of the
    pattern, [k], fails. *)
Fixpoint rep {A} (a : atom) (min : nat) (s : string)
    (k : string -> option A) : option A :=
  match s with
  | String x s' =>
      if atom_matches a x then
        match rep a (Nat.pred min) s' k with
        | Some res => Some res
        | None => if Nat.eqb min 0 then k s else None
        end
      else if Nat.eqb min 0 then k s else None
  | EmptyString => if Nat.eqb min 0 then k s else None
  end.

Fixpoint run (r : re) (s : string) (g : caps)
    (k : string -> caps -> option caps) : option caps :=
  match r with
  | REps => k s g
  | RAtom a =>
      match s with
      | String x s' => if atom_matches a x then k s' g else None
      | EmptyString => None
      end
  | RRep min a => rep a min s (fun s' => k s' g)
  | RCat r1 r2 => run r1 s g (fun s' g' => run r2 s' g' k)
  | RAlt r1 r2 =>
      match run r1 s g k with
      | Some res => Some res
      | None => run r2 s g k
      end
  | RGroup n r1 =>
      run r1 s g (fun s' g' =>
        k s' ((n, substring 0 (String.length s - String.length s') s) :: g'))
  end.

(** [re.match(pattern, s, flags)]: the groups of the match, if any. *)
Definition re_match (r : re) (s : string) : option caps :=
  run r s [] (fun _ g => Some g).
End Matcher.

(** [m.group(n)] of a group that took part in the match. *)
Fixpoint group (n : nat) (g : caps) : string :=
  match g with
  | (k, v) :: g' => if Nat.eqb k n then v else group n g'
  | [] => EmptyString
  end.

(** A literal word, character by character. *)
Fixpoint lit (w : string) : re :=
  match w with
  | String c w' => RCat (RAtom (ALit c)) (lit w')
  | EmptyString => REps
  end.

End Re.
Import Re.

(** ** The two heading patterns of [parse_slpc_sections] *)

Definition roman_set : atom :=
  ASet false [IChar "I"; IChar "V"; IChar "X"; IChar "L"; IChar "C";
              IChar "D"; IChar "M"]%char.

Definition not_newline : atom := ASet true [IChar nl_char].

(** [(?:CHAPTER|Chapter)\s+([IVXLCDM]+|\d+)[:\s]*([^\n]+)] *)
Definition chapter_tail : re :=
  RCat (RRep 1 (ASet false [ISpace]))
    (RCat (RGroup 1 (RAlt (RRep 1 roman_set) (RRep 1 (ASet false [IDigit]))))
       (RCat (RRep 0 (ASet false [IChar ":"%char; ISpace]))
          (RGroup 2 (RRep 1 not_newline)))).

Definition chapter_pattern : re :=
  RCat (RAlt (lit "CHAPTER") (lit "Chapter")) chapter_tail.

(** [(?:Section|§)\s*(\d+)[:\.\s]*([^\n]+)]; the sign [§] is the code
    point 167. *)
Definition section_sign : ascii := ascii_of_N 167.

Definition section_tail : re :=
  RCat (RRep 0 (ASet false [ISpace]))
    (RCat (RGroup 1 (RRep 1 (ASet false [IDigit])))
       (RCat (RRep 0 (ASet false [IChar ":"%char; IChar "."%char; ISpace]))
          (RGroup 2 (RRep 1 not_newline)))).

Definition section_pattern : re :=
  RCat (RAlt (lit "Section") (RAtom (ALit section_sign))) section_tail.

(** [re.match(chapter_pattern, line, re.IGNORECASE)] with its two groups. *)
Definition chapter_match (line : string) : option (string * string) :=
  match re_match true chapter_pattern line with
  | Some g => Some (group 1 g, group 2 g)
  | None => None
  end.

(** [re.match(section_pattern, line, re.IGNORECASE)] with its two groups. *)
Definition section_match (line : string) : option (string * string) :=
  match re_match true section_pattern line with
  | Some g => Some (group 1 g, group 2 g)
  | None => None
  end.

(** ** Python values and section records *)

(** The values that occur in the corpus and in its JSON file.  A float is
    kept as the text of its literal: floating point is outside the model,
    and so is the text Python prints for a float ("100.0" for the
    literal 1e2).  The records of the extractor hold no float. *)
Inductive pyval :=
| PyNone
| PyBool (b : bool)
| PyInt (z : Z)
| PyFloat (lexeme : string)
| PyStr (s : string)
| PyList (l : list pyval)
| PyDict (d : list (string * pyval)).

(** What [current_chapter_num] holds: the integer it starts with, or the
    text of a matched group. *)
Inductive chapter_id :=
| ChapterNum (n : Z)
| ChapterText (s : string).

Definition chapter_value (c : chapter_id) : pyval :=
  match c with
  | ChapterNum n => PyInt n
  | ChapterText s => PyStr s
  end.

(** The dictionary literal that [parse_slpc_sections] appends, as a
    record; [Section_] is the key ["Section"]. *)
Record SectionRecord := {
  chapter : chapter_id;
  chapter_title : string;
  Section_ : Z;
  section_title : string;
  section_desc : string
}.

(** The same dictionary as a Python value, keys in insertion order. *)
Definition record_dict (r : SectionRecord) : pyval :=
  PyDict [("chapter", chapter_value (chapter r));
          ("chapter_title", PyStr (chapter_title r));
          ("Section", PyInt (Section_ r));
          ("section_title", PyStr (section_title r));
          ("section_desc", PyStr (section_desc r))].

(** ** [parse_slpc_sections] *)

(** Either pattern matches: the test that ends the inner loop. *)
Definition is_heading (line : string) : bool :=
  match chapter_match line, section_match line with
  | None, None => false
  | _, _ => true
  end.

(** The inner [while j < len(lines)] loop.  [rest] is [lines[j:]]; the
    result is the final [j] and the accumulated [section_desc]. *)
Fixpoint collect_body (rest : list string) (j : nat) (desc : string)
    : nat * string :=
  match rest with
  | [] => (j, desc)
  | raw :: rest' =>
      let next_line := strip raw in
      if is_heading next_line then (j, desc)
      else collect_body rest' (S j)
             (if truthy next_line then desc ++ next_line ++ " " else desc)
  end.

(** The variables of the outer loop. *)
Record scan_state := {
  pos : nat;                        (* i *)
  current_chapter_num : chapter_id;
  current_chapter : string;
  sections : list SectionRecord
}.

Definition scan_init : scan_state :=
  {| pos := 0; current_chapter_num := ChapterNum 0;
     current_chapter := "Unknown"; sections := [] |}.

(** One pass through the body of the outer loop, on the line [raw] found
    at index [pos st]. *)
Definition scan_step (lines : list string) (st : scan_state) (raw : string)
    : scan_state :=
  let i := pos st in
  let line := strip raw in
  match chapter_match line with
  | Some (g1, g2) =>
      {| pos := i + 1; current_chapter_num := ChapterText g1;
         current_chapter := strip g2; sections := sections st |}
  | None =>
      match section_match line with
      | Some (g1, g2) =>
          let section_num := int_of_digits g1 in
          let title := strip g2 in
          let '(j, desc) := collect_body (drop (i + 1) lines) (i + 1) "" in
          let desc := strip desc in
          {| pos := j;
             current_chapter_num := current_chapter_num st;
             current_chapter := current_chapter st;
             sections :=
               if truthy desc then
                 sections st ++
                   [{| chapter := current_chapter_num st;
                       chapter_title := current_chapter st;
                       Section_ := section_num;
                       section_title := title;
                       section_desc := desc |}]
               else sections st |}
      | None =>
          {| pos := i + 1;
             current_chapter_num := current_chapter_num st;
             current_chapter := current_chapter st;
             sections := sections st |}
      end
  end.

(** The outer [while i < len(lines)] loop; [None] when the fuel runs out
    before the loop ends. *)
Fixpoint scan_loop (fuel : nat) (lines : list string) (st : scan_state)
    : option scan_state :=
  match lines !! pos st with
  | None => Some st
  | Some raw =>
      match fuel with
      | O => None
      | S fuel' => scan_loop fuel' lines (scan_step lines st raw)
      end
  end.

Definition parse_lines (lines : list string) : option (list SectionRecord) :=
  sections <$> scan_loop (length lines) lines scan_init.

Definition parse_slpc_sections (text : string) : option (list SectionRecord) :=
  parse_lines (split_nl text).

(** ** A line-by-line reading of the scan

    The definitions below are not part of the program: they describe its
    result by recursion on the list of lines, and the theorems relate the
    index-driven loop to them. *)

(** How the scan treats a line: the chapter pattern is tried first. *)
Inductive line_kind := KChapter | KSection | KBody.

Definition classify (raw : string) : line_kind :=
  match chapter_match (strip raw) with
  | Some _ => KChapter
  | None =>
      match section_match (strip raw) with
      | Some _ => KSection
      | None => KBody
      end
  end.

(** The lines from the start of [rest] up to the first heading. *)
Fixpoint body_run (rest : list string) : list string :=
  match rest with
  | [] => []
  | raw :: rest' =>
      if is_heading (strip raw) then [] else raw :: body_run rest'
  end.

(** The text accumulated over a run of body lines, starting from [desc]. *)
Fixpoint body_text (run : list string) (desc : string) : string :=
  match run with
  | [] => desc
  | raw :: run' =>
      body_text run'
        (if truthy (strip raw) then desc ++ strip raw ++ " " else desc)
  end.

(** The records of the lines [ls], read under the chapter context
    [(num, title)]. *)
Fixpoint sections_from (num : chapter_id) (title : string) (ls : list string)
    : list SectionRecord :=
  match ls with
  | [] => []
  | raw :: rest =>
      match chapter_match (strip raw) with
      | Some (g1, g2) => sections_from (ChapterText g1) (strip g2) rest
      | None =>
          match section_match (strip raw) with
          | Some (g1, g2) =>
              let desc := strip (body_text (body_run rest) "") in
              (if truthy desc then
                 [{| chapter := num; chapter_title := title;
                     Section_ := int_of_digits g1;
                     section_title := strip g2;
                     section_desc := desc |}]
               else [])
              ++ sections_from num title rest
          | None => sections_from num title rest
          end
      end
  end.

(** Number and title of the lines the scan takes for section headings
    (the lines [section_pattern] matches and [chapter_pattern] does not),
    in document order. *)
Fixpoint section_headings (ls : list string) : list (Z * string) :=
  match ls with
  | [] => []
  | raw :: rest =>
      match classify raw, section_match (strip raw) with
      | KSection, Some (g1, g2) =>
          (int_of_digits g1, strip g2) :: section_headings rest
      | _, _ => section_headings rest
      end
  end.

(** ** Section headings in the words of the specification

    The specification has section headings "accept several numbering
    conventions (label-prefixed or bare numeral)", and the comment on
    [section_pattern] names the forms it is for: Section 365, the section
    sign before 365, and 365 followed by a point.  [spec_section_heading]
    reads a line that way and without the pattern: the number of the
    heading, when the line is one.  Whether a title follows the number is
    left open, as it is there. *)






(** The chapter context a record carries when no chapter heading has been
    seen. *)
Definition initial_context (r : SectionRecord) : Prop :=
  chapter r = ChapterNum 0 /\ chapter_title r = "Unknown".

(** Every character of [s] is matched by [a]. *)
Fixpoint all_match (a : atom) (s : string) : bool :=
  match s with
  | EmptyString => true
  | String c s' => atom_matches true a c && all_match a s'
  end.

(** What follows the numeral in [chapter_pattern]: separators, then the
    title, which takes at least one character. *)
Definition after_numeral (whole : string) (rest : string) : option caps :=
  rep true (ASet false [IChar ":"%char; ISpace]) 0 rest
    (fun s1 =>
       rep true not_newline 1 s1
         (fun s2 =>
            Some [(2, substring 0 (String.length s1 - String.length s2) s1);
                  (1, substring 0 (String.length whole - String.length rest)
                        whole)])).


(** ** Exceptions

    The exceptions the program raises or lets through, by name.  In
    Python [EnvironmentError] is another name of [OSError], and
    [FileNotFoundError] is a subclass of it: a handler for the first
    also takes the second.  The program has no such handler, and the
    statements below name the exception raised, not its classes. *)

Inductive exn :=
| EnvironmentError
| FileNotFoundError
| JSONDecodeError
| KeyError (key : string)
| TypeError
| StoreError.                       (* raised inside the vector store *)

Inductive result (A : Type) :=
| Ok (a : A)
| Raise (e : exn).
Arguments Ok {A} a.
Arguments Raise {A} e.

(** Sequencing: an exception ends the computation. *)
#[export] Instance result_bind : MBind result := fun A B f m =>
  match m with
  | Ok a => f a
  | Raise e => Raise e
  end.

(** Evaluate [f] on the elements from left to right, stopping at the first
    exception: a list comprehension. *)
Fixpoint comprehension {A B} (f : A -> result B) (l : list A)
    : result (list B) :=
  match l with
  | [] => Ok []
  | a :: l' => b ← f a; bs ← comprehension f l'; Ok (b :: bs)
  end.

(** ** Text of a value: [str] and [repr] *)

(** [str(n)] of an integer: decimal digits, with a sign when negative. *)
Definition repr_int (z : Z) : string :=
  DecimalString.NilZero.string_of_int (Z.to_int z).

Definition hex_digit (n : N) : ascii :=
  if (n <? 10)%N then ascii_of_N (48 + n) else ascii_of_N (87 + n).

(** Two lower-case hexadecimal digits. *)
Definition hex2 (c : ascii) : string :=
  String (hex_digit (code c / 16)) (String (hex_digit (code c mod 16)) "").

(** [str.isprintable] on one character. *)
Definition is_printable (c : ascii) : bool :=
  let n := code c in
  ((32 <=? n) && (n <? 127) || (161 <=? n) && negb (n =? 173))%N.

(** The double quote. *)
Definition dquote : ascii := "034"%char.

Fixpoint contains (c : ascii) (s : string) : bool :=
  match s with
  | EmptyString => false
  | String x s' => Ascii.eqb x c || contains c s'
  end.

Definition repr_char (quote c : ascii) : string :=
  if Ascii.eqb c quote || Ascii.eqb c "\"%char
  then String "\"%char (String c "")
  else if Ascii.eqb c "009"%char then "\t"
  else if Ascii.eqb c "010"%char then "\n"
  else if Ascii.eqb c "013"%char then "\r"
  else if is_printable c then String c ""
  else ("\x" ++ hex2 c)%string.

Fixpoint repr_chars (quote : ascii) (s : string) : string :=
  match s with
  | EmptyString => EmptyString
  | String c s' => (repr_char quote c ++ repr_chars quote s')%string
  end.

(** [repr(s)] of a string: single quotes, unless the text holds single
    quotes and no double quote. *)
Definition repr_str (s : string) : string :=
  let quote :=
    if contains "'"%char s && negb (contains dquote s)
    then dquote else "'"%char in
  (String quote (repr_chars quote s) ++ String quote "")%string.

Fixpoint join (sep : string) (l : list string) : string :=
  match l with
  | [] => EmptyString
  | [a] => a
  | a :: l' => (a ++ sep ++ join sep l')%string
  end.

(** [repr(v)] *)
Fixpoint py_repr (v : pyval) : string :=
  match v with
  | PyNone => "None"
  | PyBool true => "True"
  | PyBool false => "False"
  | PyInt z => repr_int z
  | PyFloat lexeme => lexeme
  | PyStr s => repr_str s
  | PyList l => ("[" ++ join ", " (map py_repr l) ++ "]")%string
  | PyDict d =>
      ("{" ++ join ", "
                (map (fun kv =>
                        (repr_str (fst kv) ++ ": " ++ py_repr (snd kv))%string)
                     d)
           ++ "}")%string
  end.

(** [str(v)], what an f-string puts in place of [{v}]. *)
Definition py_str (v : pyval) : string :=
  match v with
  | PyStr s => s
  | _ => py_repr v
  end.

(** ** Dictionaries *)

Fixpoint dict_get (key : string) (d : list (string * pyval)) : option pyval :=
  match d with
  | [] => None
  | (k, v) :: d' => if String.eqb k key then Some v else dict_get key d'
  end.

(** [d[key] = v]: replace the value of a key in place, or add the key at
    the end. *)
Fixpoint dict_set (key : string) (v : pyval) (d : list (string * pyval))
    : list (string * pyval) :=
  match d with
  | [] => [(key, v)]
  | (k, w) :: d' =>
      if String.eqb k key then (k, v) :: d' else (k, w) :: dict_set key v d'
  end.

(** [entry[key]] *)
Definition subscript (entry : pyval) (key : string) : result pyval :=
  match entry with
  | PyDict d =>
      match dict_get key d with
      | Some v => Ok v
      | None => Raise (KeyError key)
      end
  | _ => Raise TypeError
  end.

(** ** [prepare_documents] *)

(** A LangChain [Document]. *)
Record Document := {
  page_content : string;
  metadata : list (string * pyval)
}.

Definition prepare_document (entry : pyval) : result Document :=
  number ← subscript entry "Section";
  title ← subscript entry "section_title";
  desc ← subscript entry "section_desc";
  m_chapter ← subscript entry "chapter";
  m_chapter_title ← subscript entry "chapter_title";
  m_section ← subscript entry "Section";
  m_section_title ← subscript entry "section_title";
  Ok {| page_content :=
          ("Section " ++ py_str number ++ ": " ++ py_str title
             ++ nl ++ nl ++ py_str desc)%string;
        metadata := [("chapter", m_chapter);
                     ("chapter_title", m_chapter_title);
                     ("section", m_section);
                     ("section_title", m_section_title)] |}.

(** The comprehension iterates over [slpc_data]: the elements of a list;
    the keys of a dictionary and the characters of a string are strings,
    which cannot be subscripted by a key; other values do not iterate. *)
Definition prepare_documents (slpc_data : pyval) : result (list Document) :=
  match slpc_data with
  | PyList entries => comprehension prepare_document entries
  | PyDict [] => Ok []
  | PyStr EmptyString => Ok []
  | _ => Raise TypeError
  end.

(** The document the index holds for a section record. *)
Definition document_of (r : SectionRecord) : Document :=
  {| page_content :=
       ("Section " ++ repr_int (Section_ r) ++ ": " ++ section_title r
          ++ nl ++ nl ++ section_desc r)%string;
     metadata := [("chapter", chapter_value (chapter r));
                  ("chapter_title", PyStr (chapter_title r));
                  ("section", PyInt (Section_ r));
                  ("section_title", PyStr (section_title r))] |}.

(** ** The corpus file: [json.dump] and [json.load]

    [Json] models the two calls of the [json] module that the program
    makes, on the values of [pyval]. *)

Module Json.

(** *** Encoding: [json.dump(data, f, indent=2, ensure_ascii=False)] *)

Definition backslash : ascii := "\"%char.

(** The replacement of one character inside a string literal. *)
Definition escape_char (c : ascii) : string :=
  if Ascii.eqb c dquote then String backslash (String dquote "")
  else if Ascii.eqb c backslash then "\\"
  else if Ascii.eqb c "008"%char then "\b"
  else if Ascii.eqb c "012"%char then "\f"
  else if Ascii.eqb c "010"%char then "\n"
  else if Ascii.eqb c "013"%char then "\r"
  else if Ascii.eqb c "009"%char then "\t"
  else if (code c <? 32)%N then ("\u00" ++ hex2 c)%string
  else String c "".

Fixpoint escape (s : string) : string :=
  match s with
  | EmptyString => EmptyString
  | String c s' => (escape_char c ++ escape s')%string
  end.

Definition encode_basestring (s : string) : string :=
  String dquote (escape s ++ String dquote "")%string.

Fixpoint spaces (n : nat) : string :=
  match n with
  | O => EmptyString
  | S n' => String " "%char (spaces n')
  end.

(** A line break followed by the indentation of a nesting level. *)
Definition newline_indent (level : nat) : string :=
  (nl ++ spaces (2 * level))%string.

Fixpoint encode (level : nat) (v : pyval) {struct v} : string :=
  match v with
  | PyNone => "null"
  | PyBool true => "true"
  | PyBool false => "false"
  | PyInt z => repr_int z
  | PyFloat lexeme => lexeme
  | PyStr s => encode_basestring s
  | PyList [] => "[]"
  | PyList l =>
      ("[" ++ newline_indent (S level)
           ++ join ("," ++ newline_indent (S level)) (map (encode (S level)) l)
           ++ newline_indent level ++ "]")%string
  | PyDict [] => "{}"
  | PyDict d =>
      ("{" ++ newline_indent (S level)
           ++ join ("," ++ newline_indent (S level))
                (map (fun kv => (encode_basestring (fst kv) ++ ": "
                                   ++ encode (S level) (snd kv))%string) d)
           ++ newline_indent level ++ "}")%string
  end.

Definition dumps (v : pyval) : string := encode 0 v.

(** *** Decoding: [json.load(file)] *)

Definition is_ws (c : ascii) : bool :=
  Ascii.eqb c " "%char || Ascii.eqb c "009"%char
  || Ascii.eqb c "010"%char || Ascii.eqb c "013"%char.

Fixpoint skip_ws (s : string) : string :=
  match s with
  | String c s' => if is_ws c then skip_ws s' else s
  | EmptyString => EmptyString
  end.

Definition hex_val (c : ascii) : option N :=
  let n := code c in
  if is_digit c then Some (n - 48)%N
  else if ((97 <=? n) && (n <=? 102))%N then Some (n - 87)%N
  else if ((65 <=? n) && (n <=? 70))%N then Some (n - 55)%N
  else None.

Definition hex4 (a b c d : ascii) : option N :=
  x ← hex_val a; y ← hex_val b; z ← hex_val c; w ← hex_val d;
  Some (((x * 16 + y) * 16 + z) * 16 + w)%N.

(** The character a backslash escape stands for. *)
Definition unescape (e : ascii) : option ascii :=
  if Ascii.eqb e dquote then Some dquote
  else if Ascii.eqb e backslash then Some backslash
  else if Ascii.eqb e "/"%char then Some "/"%char
  else if Ascii.eqb e "b"%char then Some "008"%char
  else if Ascii.eqb e "f"%char then Some "012"%char
  else if Ascii.eqb e "n"%char then Some "010"%char
  else if Ascii.eqb e "r"%char then Some "013"%char
  else if Ascii.eqb e "t"%char then Some "009"%char
  else None.

Definition push (c : ascii) (r : option (string * string))
    : option (string * string) :=
  match r with
  | Some (t, rest) => Some (String c t, rest)
  | None => None
  end.

(** The text of a string literal whose opening quote has been read, and
    what follows its closing quote.  Control characters are refused.  An
    escape of a code point above 255 is refused as well, where
    [json.load] decodes it: the alphabet of the model does not hold the
    character, so a text with such an escape is outside the model, and
    what the decoder answers there stands for nothing. *)
Fixpoint scanstring (s : string) : option (string * string) :=
  match s with
  | EmptyString => None
  | String c s' =>
      if Ascii.eqb c dquote then Some (EmptyString, s')
      else if Ascii.eqb c backslash then
        match s' with
        | EmptyString => None
        | String e s'' =>
            if Ascii.eqb e "u"%char then
              match s'' with
              | String h1 (String h2 (String h3 (String h4 s3))) =>
                  match hex4 h1 h2 h3 h4 with
                  | Some n =>
                      if (n <? 256)%N then push (ascii_of_N n) (scanstring s3)
                      else None
                  | None => None
                  end
              | _ => None
              end
            else
              match unescape e with
              | Some ch => push ch (scanstring s'')
              | None => None
              end
        end
      else if (code c <? 32)%N then None
      else push c (scanstring s')
  end.

(** The longest prefix of digits, and the rest. *)
Fixpoint span_digits (s : string) : string * string :=
  match s with
  | String c s' =>
      if is_digit c then
        let '(ds, rest) := span_digits s' in (String c ds, rest)
      else (EmptyString, s)
  | EmptyString => (EmptyString, EmptyString)
  end.

(** [int(s)] of a decimal literal with an optional minus sign. *)
Definition py_int (s : string) : option Z :=
  Z.of_int <$> DecimalString.NilZero.int_of_string s.

(** A number: an optional minus sign, then a zero or a run of digits that
    starts with a non-zero one; an optional fraction and an optional
    exponent, which make it a float. *)
Definition scan_sign (s : string) : string * string :=
  match s with
  | String c s' => if Ascii.eqb c "-"%char then ("-", s') else ("", s)
  | EmptyString => ("", s)
  end.

Definition scan_integer (s : string) : option (string * string) :=
  match s with
  | String d s' =>
      if Ascii.eqb d "0"%char then Some (String d "", s')
      else if is_digit d then
        let '(ds, rest) := span_digits s' in Some (String d ds, rest)
      else None
  | EmptyString => None
  end.

(** A point followed by at least one digit, or nothing. *)
Definition scan_fraction (s : string) : string * string :=
  match s with
  | String p s' =>
      if Ascii.eqb p "."%char then
        match span_digits s' with
        | (EmptyString, _) => ("", s)
        | (fs, rest) => (String p fs, rest)
        end
      else ("", s)
  | EmptyString => ("", s)
  end.

(** An [e] or [E], an optional sign and at least one digit, or nothing. *)
Definition scan_exponent (s : string) : string * string :=
  match s with
  | String e s' =>
      if Ascii.eqb e "e"%char || Ascii.eqb e "E"%char then
        let '(esign, s'') :=
          match s' with
          | String g t =>
              if Ascii.eqb g "-"%char || Ascii.eqb g "+"%char
              then (String g "", t) else ("", s')
          | EmptyString => ("", s')
          end in
        match span_digits s'' with
        | (EmptyString, _) => ("", s)
        | (es, rest) => (String e (esign ++ es), rest)
        end
      else ("", s)
  | EmptyString => ("", s)
  end.

Definition scan_number (s : string) : option (pyval * string) :=
  let '(sign, s1) := scan_sign s in
  '(digits, s2) ← scan_integer s1;
  let '(frac, s3) := scan_fraction s2 in
  let '(exp, s4) := scan_exponent s3 in
  let integer := (sign ++ digits)%string in
  match frac, exp with
  | EmptyString, EmptyString => z ← py_int integer; Some (PyInt z, s4)
  | _, _ => Some (PyFloat (integer ++ frac ++ exp), s4)
  end.

(** [s] starts with the word [w]: what follows it. *)
Fixpoint after_word (w s : string) : option string :=
  match w, s with
  | EmptyString, _ => Some s
  | String a w', String b s' =>
      if Ascii.eqb a b then after_word w' s' else None
  | String _ _, EmptyString => None
  end.

(** [dict(pairs)]: a repeated key keeps its place and takes the last
    value. *)
Definition dict_of_pairs (pairs : list (string * pyval))
    : list (string * pyval) :=
  fold_left (fun d kv => dict_set (fst kv) (snd kv) d) pairs [].

(** The decoder proper.  [scan_once] reads one value at the start of the
    text; [array_items] reads the items of an array up to its closing
    bracket, [object_pairs] the members of an object from the text of the
    first key up to the closing brace. *)
Fixpoint scan_once (fuel : nat) (s : string) : option (pyval * string) :=
  match fuel with
  | O => None
  | S fuel' =>
      match s with
      | EmptyString => None
      | String c s' =>
          if Ascii.eqb c dquote then
            '(t, rest) ← scanstring s'; Some (PyStr t, rest)
          else if Ascii.eqb c "{"%char then
            match skip_ws s' with
            | String k rest =>
                if Ascii.eqb k "}"%char then Some (PyDict [], rest)
                else if Ascii.eqb k dquote then
                  '(pairs, rest') ← object_pairs fuel' rest;
                  Some (PyDict (dict_of_pairs pairs), rest')
                else None
            | EmptyString => None
            end
          else if Ascii.eqb c "["%char then
            match skip_ws s' with
            | String k rest =>
                if Ascii.eqb k "]"%char then Some (PyList [], rest)
                else
                  '(items, rest') ← array_items fuel' (String k rest);
                  Some (PyList items, rest')
            | EmptyString => None
            end
          else
            match after_word "null" s, after_word "true" s,
                  after_word "false" s with
            | Some rest, _, _ => Some (PyNone, rest)
            | _, Some rest, _ => Some (PyBool true, rest)
            | _, _, Some rest => Some (PyBool false, rest)
            | _, _, _ =>
                match scan_number s with
                | Some number => Some number
                | None =>
                    match after_word "NaN" s, after_word "Infinity" s,
                          after_word "-Infinity" s with
                    | Some rest, _, _ => Some (PyFloat "NaN", rest)
                    | _, Some rest, _ => Some (PyFloat "Infinity", rest)
                    | _, _, Some rest => Some (PyFloat "-Infinity", rest)
                    | _, _, _ => None
                    end
                end
            end
      end
  end
with array_items (fuel : nat) (s : string) : option (list pyval * string) :=
  match fuel with
  | O => None
  | S fuel' =>
      '(v, s1) ← scan_once fuel' s;
      match skip_ws s1 with
      | String k rest =>
          if Ascii.eqb k "]"%char then Some ([v], rest)
          else if Ascii.eqb k ","%char then
            '(vs, rest') ← array_items fuel' (skip_ws rest);
            Some (v :: vs, rest')
          else None
      | EmptyString => None
      end
  end
with object_pairs (fuel : nat) (s : string)
    : option (list (string * pyval) * string) :=
  match fuel with
  | O => None
  | S fuel' =>
      '(key, s1) ← scanstring s;
      match skip_ws s1 with
      | String k s2 =>
          if Ascii.eqb k ":"%char then
            '(v, s3) ← scan_once fuel' (skip_ws s2);
            match skip_ws s3 with
            | String k' rest =>
                if Ascii.eqb k' "}"%char then Some ([(key, v)], rest)
                else if Ascii.eqb k' ","%char then
                  match skip_ws rest with
                  | String q rest' =>
                      if Ascii.eqb q dquote then
                        '(ps, rest'') ← object_pairs fuel' rest';
                        Some ((key, v) :: ps, rest'')
                      else None
                  | EmptyString => None
                  end
                else None
            | EmptyString => None
            end
          else None
      | EmptyString => None
      end
  end.

(** [json.loads(s)]: one value, with nothing but white space around it.
    A unit of fuel is spent on entering a value or on an item of a
    container, each of which reads a character, so twice the length of
    the text is more than any text needs. *)
Definition loads (s : string) : result pyval :=
  match scan_once (2 * String.length s + 2) (skip_ws s) with
  | Some (v, rest) =>
      match skip_ws rest with
      | EmptyString => Ok v
      | String _ _ => Raise JSONDecodeError
      end
  | None => Raise JSONDecodeError
  end.


(** *** Vocabulary for the round trip

    Not part of the program: the notions the proofs about the decoder are
    stated with. *)

(** The text that follows a value inside an array or an object starts
    with a comma or a line break. *)
Definition stop (rest : string) : Prop :=
  match rest with
  | String c _ => c = ","%char \/ c = nl_char
  | EmptyString => False
  end.

(** A value whose encoding at a nesting level is read back, given enough
    fuel, when a comma or a line break follows it. *)
Definition parses (level cost : nat) (v : pyval) : Prop :=
  (forall rest,
     skip_ws (encode level v ++ rest)%string = (encode level v ++ rest)%string)
  /\ forall fuel rest,
       cost <= fuel -> stop rest ->
       scan_once fuel (encode level v ++ rest)%string = Some (v, rest).

Definition separator (level : nat) : string :=
  ("," ++ newline_indent level)%string.

Definition member_text (level : nat) (kv : string * pyval) : string :=
  (encode_basestring (fst kv) ++ ": " ++ encode level (snd kv))%string.

End Json.

(** ** [save_to_json] and [load_slpc_data]

    The files are a map from paths to their text; both functions open the
    file as UTF-8, so what is read is the text that was written. *)

(** [save_to_json(data, output_path)]: the file holds the encoding of
    [data] afterwards. *)
Definition save_to_json (data : pyval) (output_path : string)
    (files : gmap string string) : gmap string string :=
  <[output_path := Json.dumps data]> files.

(** [load_slpc_data(file_path)] *)
Definition load_slpc_data (file_path : string) (files : gmap string string)
    : result pyval :=
  match files !! file_path with
  | Some text => Json.loads text
  | None => Raise FileNotFoundError
  end.

(** The Python value of a list of section records. *)
Definition records_value (rs : list SectionRecord) : pyval :=
  PyList (map record_dict rs).

(** ** The vector store

    The store ([langchain_chroma.Chroma]) and the embedding model
    ([HuggingFaceEmbeddings]) are libraries outside the repository.  The
    model keeps the two calls the program makes into them and one
    observation, and leaves their behaviour to the instance.  Each call
    stands for everything the program does between its guard and its
    return: the embedding model is made first (line 68 of the builder,
    line 36 of the search tool), so an exception of its constructor is an
    exception of the call, raised before the store is touched. *)

Class VectorStore := {
  (** the persisted state: every collection at every location *)
  store : Type;
  (** the documents of the collection [(persist_directory, collection_name)] *)
  collection : store -> string -> string -> list Document;
  (** [Chroma.from_documents(documents, embedding, persist_directory,
      collection_name)] *)
  from_documents : list Document -> string -> string -> store -> result store;
  (** [Chroma(collection_name, persist_directory, embedding_function)
      .similarity_search(query, k)]; the collection name is what
      [os.getenv] returned *)
  similarity_search :
    store -> option string -> string -> string -> nat -> result (list Document)
}.

(** Every hit of a search is a document of the collection searched. *)
Definition search_within (V : VectorStore) : Prop :=
  forall s name dir query k docs,
    similarity_search s (Some name) dir query k = Ok docs ->
    forall d, d ∈ docs -> d ∈ collection s dir name.

(** [from_documents] adds: the named collection holds what it held,
    followed by the documents given.  This is what
    [Chroma.from_documents] does: it opens the collection of that name at
    the location, makes it when there is none, and adds the documents
    under new identifiers. *)
Definition adds (V : VectorStore) : Prop :=
  forall docs dir name s s',
    from_documents docs dir name s = Ok s' ->
    collection s' dir name = collection s dir name ++ docs.

(** A store of that kind over a map from (location, name) to documents.
    Its search stands in for the ranking, which the embedding model
    decides: it returns the first [k] documents in the order they were
    added, so all of them when the collection holds no more than [k]. *)
Definition held (s : gmap (string * string) (list Document))
    (dir name : string) : list Document :=
  default [] (s !! (dir, name)).

Definition nearest (s : gmap (string * string) (list Document))
    (name : option string) (dir query : string) (k : nat)
    : result (list Document) :=
  match name with
  | Some n => Ok (take k (held s dir n))
  | None => Raise StoreError
  end.

Definition adding_store : VectorStore :=
  {| store := gmap (string * string) (list Document);
     collection := held;
     from_documents docs dir name s :=
       Ok (<[(dir, name) := held s dir name ++ docs]> s);
     similarity_search := nearest |}.

(** ** [build_slpc_vectordb] and [search_slpc_sections] *)

(** What a run does outside the process: opening the corpus file for
    reading (whether or not the file is there), and the two calls into
    the libraries of the store. *)
Inductive event :=
| ReadFile (path : string)
| StoreWrite (dir name : string)
| StoreOpen (dir : string) (name : option string).

Definition DEFAULT_TOP_K : nat := 3.

(** Truth value of what [os.getenv] returns: set and not empty. *)
Definition is_set (v : option string) : bool :=
  match v with
  | Some s => truthy s
  | None => false
  end.

(** The dictionary the search tool returns for a hit; [metadata.get]
    gives [None] for a missing key. *)
Definition hit_of (doc : Document) : pyval :=
  let get key := default PyNone (dict_get key (metadata doc)) in
  PyDict [("section", get "section");
          ("section_title", get "section_title");
          ("chapter", get "chapter");
          ("chapter_title", get "chapter_title");
          ("content", PyStr (page_content doc))].

Section Index.
Context {V : VectorStore}.

(** The world of a run: the files, the persisted index, and the log of
    the input and output done so far (latest first). *)
Record world := {
  files : gmap string string;
  index : store;
  io_log : list event
}.

Definition log (e : event) (w : world) : world :=
  {| files := files w; index := index w; io_log := e :: io_log w |}.

(** [env] is the environment after [load_dotenv()]. *)
Definition build_slpc_vectordb (env : gmap string string) (w : world)
    : result unit * world :=
  let slpc_json_path := env !! "SLPC_JSON_PATH" in
  let persist_dir_path := env !! "PERSIST_DIRECTORY_PATH" in
  let collection_name := env !! "SLPC_COLLECTION_NAME" in
  match slpc_json_path, persist_dir_path, collection_name with
  | Some path, Some dir, Some name =>
      if forallb is_set [slpc_json_path; persist_dir_path; collection_name]
      then
        let w1 := log (ReadFile path) w in
        match load_slpc_data path (files w) with
        | Raise e => (Raise e, w1)
        | Ok slpc_data =>
            match prepare_documents slpc_data with
            | Raise e => (Raise e, w1)
            | Ok documents =>
                let w2 := log (StoreWrite dir name) w1 in
                match from_documents documents dir name (index w) with
                | Raise e => (Raise e, w2)
                | Ok s' =>
                    (Ok tt,
                     {| files := files w2; index := s'; io_log := io_log w2 |})
                end
            end
        end
      else (Raise EnvironmentError, w)
  | _, _, _ => (Raise EnvironmentError, w)
  end.

Definition search_slpc_sections (env : gmap string string) (query : string)
    (w : world) : result (list pyval) * world :=
  let persist_dir_path := env !! "PERSIST_DIRECTORY_PATH" in
  match persist_dir_path with
  | Some dir =>
      if is_set persist_dir_path then
        let collection_name := env !! "SLPC_COLLECTION_NAME" in
        let w1 := log (StoreOpen dir collection_name) w in
        match similarity_search (index w) collection_name dir query
                DEFAULT_TOP_K with
        | Ok docs => (Ok (map hit_of docs), w1)
        | Raise e => (Raise e, w1)
        end
      else (Raise EnvironmentError, w)
  | None => (Raise EnvironmentError, w)
  end.

(** The extractor leaves the records [rs] in the corpus file [path]. *)
Definition write_corpus (rs : list SectionRecord) (path : string) (w : world)
    : world :=
  {| files := save_to_json (records_value rs) path (files w);
     index := index w; io_log := io_log w |}.

(** Rebuilding replaces: after a build from [R1] and a build from [R2]
    under the same configuration, a search only returns hits made from
    records of [R2]. *)
Definition rebuild_replaces : Prop :=
  forall (R1 R2 : list SectionRecord) (env : gmap string string)
         (path : string) (w w1 w2 w3 : world) (query : string)
         (hits : list pyval),
    env !! "SLPC_JSON_PATH" = Some path ->
    build_slpc_vectordb env (write_corpus R1 path w) = (Ok tt, w1) ->
    build_slpc_vectordb env (write_corpus R2 path w1) = (Ok tt, w2) ->
    search_slpc_sections env query w2 = (Ok hits, w3) ->
    forall hit,
      hit ∈ hits -> exists r, r ∈ R2 /\ hit = hit_of (document_of r).

End Index.
Arguments world : clear implicits.
Arguments rebuild_replaces : clear implicits.

(** ** Sample data

    The two records of the end-to-end scenario, a complete configuration,
    one that names the index location only, and an empty world. *)

Definition short_title : SectionRecord :=
  {| chapter := ChapterText "I"; chapter_title := "General";
     Section_ := 1; section_title := "Short title";
     section_desc := "This Code may be called the Penal Code." |}.

Definition punishment : SectionRecord :=
  {| chapter := ChapterText "I"; chapter_title := "General";
     Section_ := 2; section_title := "Punishment";
     section_desc := "Every person liable shall be punished." |}.

Definition full_env : gmap string string :=
  <["SLPC_JSON_PATH" := "slpc.json"]>
    (<["PERSIST_DIRECTORY_PATH" := "chroma_db"]>
       (<["SLPC_COLLECTION_NAME" := "slpc"]> ∅)).

Definition location_only_env : gmap string string :=
  <["PERSIST_DIRECTORY_PATH" := "chroma_db"]> ∅.

Definition empty_world (V : VectorStore) (s : store) : world V :=
  {| files := ∅; index := s; io_log := [] |}.

(** ** What a pattern matches

    A reading of the patterns that does not run the matcher: [matches r p
    g g'] says that the text [p] has the form [r] describes (under
    [re.IGNORECASE]) and that matching it extends the groups [g] to
    [g'].  As everywhere, the characters are those of the model, the
    code points below 256: there a letter in any case is the upper-case
    or the lower-case letter and nothing else. *)

Inductive matches : re -> string -> caps -> caps -> Prop :=
| matches_eps g : matches REps EmptyString g g
| matches_atom a x g :
    atom_matches true a x = true ->
    matches (RAtom a) (String x EmptyString) g g
| matches_rep min a p g :
    all_match a p = true -> min <= String.length p ->
    matches (RRep min a) p g g
| matches_cat r1 r2 p1 p2 g g1 g2 :
    matches r1 p1 g g1 -> matches r2 p2 g1 g2 ->
    matches (RCat r1 r2) (p1 ++ p2)%string g g2
| matches_alt_l r1 r2 p g g' :
    matches r1 p g g' -> matches (RAlt r1 r2) p g g'
| matches_alt_r r1 r2 p g g' :
    matches r2 p g g' -> matches (RAlt r1 r2) p g g'
| matches_group n r p g g' :
    matches r p g g' -> matches (RGroup n r) p g ((n, p) :: g').

(** The text holds no line break, as every element of
    [text.split('\n')] does. *)
Fixpoint no_newline (s : string) : bool :=
  match s with
  | EmptyString => true
  | String c s' => negb (Ascii.eqb c nl_char) && no_newline s'
  end.

(** The letters of [w], in either case. *)
Fixpoint same_word (w p : string) : bool :=
  match w, p with
  | EmptyString, EmptyString => true
  | String a w', String b p' => Ascii.eqb (lower a) (lower b) && same_word w' p'
  | _, _ => false
  end.

(** The items a heading is made of. *)
Definition blanks (s : string) : bool := all_match (ASet false [ISpace]) s.
Definition digits (s : string) : bool := all_match (ASet false [IDigit]) s.
Definition roman (s : string) : bool := all_match roman_set s.

(** What may stand between the numeral and the title of a heading. *)
Definition chapter_separators (s : string) : bool :=
  all_match (ASet false [IChar ":"%char; ISpace]) s.

Definition section_separators (s : string) : bool :=
  all_match (ASet false [IChar ":"%char; IChar "."%char; ISpace]) s.

(** The patterns without their last group, the title. *)
Definition chapter_head : re :=
  RCat (RAlt (lit "CHAPTER") (lit "Chapter"))
    (RCat (RRep 1 (ASet false [ISpace]))
       (RCat (RGroup 1 (RAlt (RRep 1 roman_set) (RRep 1 (ASet false [IDigit]))))
          (RRep 0 (ASet false [IChar ":"%char; ISpace])))).

Definition section_head : re :=
  RCat (RAlt (lit "Section") (RAtom (ALit section_sign)))
    (RCat (RRep 0 (ASet false [ISpace]))
       (RCat (RGroup 1 (RRep 1 (ASet false [IDigit])))
          (RRep 0 (ASet false [IChar ":"%char; IChar "."%char; ISpace])))).

Definition title_group : re := RGroup 2 (RRep 1 not_newline).

(** The label of a chapter heading, in any case. *)
Definition chapter_label (s : string) : bool := same_word "CHAPTER" s.

(** The label of a section heading: the word in any case, or the sign. *)
Definition section_label (s : string) : bool :=
  same_word "SECTION" s || String.eqb s (String section_sign "").

(** ** What the records of a scan look like *)

(** A text that [strip] leaves as it is. *)
Definition stripped (s : string) : Prop := strip s = s.

(** A non-empty run of roman numeral letters or of digits. *)
Definition numeral_text (s : string) : Prop :=
  s <> EmptyString /\ (roman s = true \/ digits s = true).

(** A chapter identifier: the initial integer or the numeral of a
    heading. *)
Definition chapter_ok (c : chapter_id) : Prop :=
  c = ChapterNum 0 \/ exists s, c = ChapterText s /\ numeral_text s.

Definition record_ok (r : SectionRecord) : Prop :=
  chapter_ok (chapter r)
  /\ chapter_title r <> EmptyString /\ stripped (chapter_title r)
  /\ (0 <= Section_ r)%Z
  /\ section_title r <> EmptyString /\ stripped (section_title r)
  /\ section_desc r <> EmptyString /\ stripped (section_desc r).

(** The chapter context after the lines [ls], starting from [c]: that of
    the last chapter heading among them, if there is one. *)
Definition context_after (c : chapter_id * string) (ls : list string)
    : chapter_id * string :=
  fold_left
    (fun c raw =>
       match chapter_match (strip raw) with
       | Some (g1, g2) => (ChapterText g1, strip g2)
       | None => c
       end)
    ls c.


(** The lines of a body that are not blank, stripped. *)
Definition body_lines (body : list string) : list string :=
  List.filter truthy (map strip body).

Definition not_blank (raw : string) : bool := truthy (strip raw).

(** ** The extractor: [extract_text_from_pdf] and [main]

    The PDF reader ([pdfplumber]) is a library outside the repository.
    What it makes of the file at a path is given as data: no entry when
    there is no file, an exception when the reader raises, and otherwise
    the result of [extract_text()] for each page, which is a text or
    [None]. *)

Abbreviation pdf_reading := (result (list (option string))).

(** The loop [for page in pdf.pages: text += page.extract_text() + "\n"];
    adding [None] to a string raises [TypeError]. *)
Fixpoint add_pages (pages : list (option string)) (text : string)
    : result string :=
  match pages with
  | [] => Ok text
  | Some page :: pages' => add_pages pages' (text ++ (page ++ nl))%string
  | None :: _ => Raise TypeError
  end.

(** [extract_text_from_pdf(pdf_path)]; an exception is reported and raised
    again. *)
Definition extract_text_from_pdf (pdfs : gmap string pdf_reading)
    (pdf_path : string) : result string :=
  match pdfs !! pdf_path with
  | None => Raise FileNotFoundError
  | Some reading => pages ← reading; add_pages pages EmptyString
  end.

Definition PDF_PATH : string := "data/penal_code.pdf".
Definition OUTPUT_PATH : string := "slpc.json".

(** [main()]: the files it leaves.  [preview_sections] only prints, and
    what it reads of a record the scan has put there.  The outer [option]
    is that of the scan. *)
Definition main (pdfs : gmap string pdf_reading) (files : gmap string string)
    : option (result (gmap string string)) :=
  match pdfs !! PDF_PATH with
  | None => Some (Ok files)
  | Some _ =>
      match extract_text_from_pdf pdfs PDF_PATH with
      | Raise e => Some (Raise e)
      | Ok text =>
          match parse_slpc_sections text with
          | None => None
          | Some [] => Some (Ok files)
          | Some sections =>
              Some (Ok (save_to_json (records_value sections) OUTPUT_PATH
                          files))
          end
      end
  end.

(** The lines of the pages, one page after the other. *)
Definition page_lines (pages : list string) : list string :=
  concat (map split_nl pages).

(** ** Entries [prepare_documents] can read *)

(** The keys [prepare_documents] subscripts an entry with, in the order
    of their first use. *)
Definition required_keys : list string :=
  ["Section"; "section_title"; "section_desc"; "chapter"; "chapter_title"].

Definition has_key (d : list (string * pyval)) (key : string) : bool :=
  match dict_get key d with
  | Some _ => true
  | None => false
  end.

(** The first of the keys that a dictionary lacks. *)
Definition missing_key (d : list (string * pyval)) : option string :=
  List.find (fun key => negb (has_key d key)) required_keys.

Definition readable (entry : pyval) : bool :=
  match entry with
  | PyDict d => forallb (has_key d) required_keys
  | _ => false
  end.

(** * Properties of the corpus structurer *)

(** ** Strings *)

Lemma append_cons c (s t : string) :
  (String c s ++ t)%string = String c (s ++ t).
Proof. reflexivity. Qed.

Lemma append_nil_l (t : string) : ("" ++ t)%string = t.
Proof. reflexivity. Qed.

Lemma append_nil_r (s : string) : (s ++ "")%string = s.
Proof.
  induction s as [|c s IH]; [reflexivity |].
  now rewrite append_cons, IH.
Qed.

Lemma append_assoc (a b c : string) :
  ((a ++ b) ++ c)%string = (a ++ (b ++ c))%string.
Proof.
  induction a as [|x a IH]; [reflexivity |].
  now rewrite !append_cons, IH.
Qed.

Lemma lstrip_head (s : string) c t :
  lstrip s = String c t -> is_space c = false.
Proof.
  induction s as [|x s IH]; simpl; [discriminate |].
  destruct (is_space x) eqn:Hx; [exact IH |].
  intros [= -> _]. exact Hx.
Qed.

Lemma rstrip_nonspace c t :
  is_space c = false -> rstrip (String c t) = String c (rstrip t).
Proof. intros Hc. simpl. rewrite Hc. now destruct (rstrip t). Qed.

Lemma strip_head (s : string) c t :
  strip s = String c t -> is_space c = false.
Proof.
  unfold strip. destruct (lstrip s) as [|x u] eqn:Hl; [discriminate |].
  pose proof (lstrip_head _ _ _ Hl) as Hx.
  rewrite (rstrip_nonspace _ _ Hx). now intros [= <- _].
Qed.

Lemma strip_nonspace c t :
  is_space c = false -> strip (String c t) = String c (rstrip t).
Proof.
  intros Hc. unfold strip. simpl lstrip. rewrite Hc.
  now apply rstrip_nonspace.
Qed.

Lemma truthy_true (s : string) : truthy s = true <-> s <> "".
Proof. destruct s; simpl; split; congruence. Qed.

(** A text that starts with a stripped, non-empty line stays non-empty
    when stripped. *)
Lemma strip_starts_stripped (raw rest : string) :
  truthy (strip raw) = true ->
  truthy (strip (strip raw ++ rest)%string) = true.
Proof.
  destruct (strip raw) as [|c t] eqn:Hs; [discriminate |]. intros _.
  pose proof (strip_head _ _ _ Hs) as Hc.
  now rewrite append_cons, (strip_nonspace _ _ Hc).
Qed.

(** ** The inner loop *)

Lemma is_heading_false (line : string) :
  is_heading line = false <->
  chapter_match line = None /\ section_match line = None.
Proof.
  unfold is_heading.
  destruct (chapter_match line), (section_match line); split;
    intros; try discriminate; intuition congruence.
Qed.

Lemma body_text_app (run : list string) (desc : string) :
  body_text run desc = (desc ++ body_text run "")%string.
Proof.
  revert desc. induction run as [|raw run IH]; intros desc; simpl.
  - now rewrite append_nil_r.
  - destruct (truthy (strip raw)); [| apply IH].
    rewrite (IH (desc ++ _)%string), (IH ("" ++ _)%string).
    now rewrite append_nil_l, !append_assoc.
Qed.

Lemma collect_body_run (rest : list string) (j : nat) (desc : string) :
  collect_body rest j desc
  = (j + length (body_run rest), body_text (body_run rest) desc).
Proof.
  revert j desc. induction rest as [|raw rest IH]; intros j desc; simpl.
  - f_equal. lia.
  - destruct (is_heading (strip raw)); simpl.
    + f_equal. lia.
    + rewrite IH. f_equal. lia.
Qed.

Lemma body_run_length (rest : list string) :
  length (body_run rest) <= length rest.
Proof.
  induction rest as [|raw rest IH]; simpl; [lia |].
  destruct (is_heading (strip raw)); simpl; lia.
Qed.

(** Body lines produce no record of their own: the scan may as well jump
    over them. *)
Lemma sections_from_skip_run num title (rest : list string) :
  sections_from num title (drop (length (body_run rest)) rest)
  = sections_from num title rest.
Proof.
  induction rest as [|raw rest IH]; simpl; [reflexivity |].
  destruct (is_heading (strip raw)) eqn:Hh; simpl; [reflexivity |].
  apply is_heading_false in Hh as [-> ->]. exact IH.
Qed.

(** ** The outer loop *)

(** Each pass moves the index forward and keeps it within the lines. *)
Lemma scan_step_pos (lines : list string) (st : scan_state) (raw : string) :
  lines !! pos st = Some raw ->
  pos st < pos (scan_step lines st raw) <= length lines.
Proof.
  intros Hraw. apply lookup_lt_Some in Hraw as Hlt.
  unfold scan_step.
  destruct (chapter_match (strip raw)) as [[g1 g2]|]; simpl; [lia |].
  destruct (section_match (strip raw)) as [[g1 g2]|]; simpl; [| lia].
  rewrite collect_body_run. simpl.
  pose proof (body_run_length (drop (pos st + 1) lines)) as Hrun.
  rewrite length_drop in Hrun. lia.
Qed.

Lemma scan_loop_sections (fuel : nat) (lines : list string) (st : scan_state) :
  length lines - pos st <= fuel ->
  pos st <= length lines ->
  exists st',
    scan_loop fuel lines st = Some st'
    /\ pos st' = length lines
    /\ sections st'
       = sections st
         ++ sections_from (current_chapter_num st) (current_chapter st)
              (drop (pos st) lines).
Proof.
  revert st. induction fuel as [|fuel IH]; intros st Hfuel Hpos.
  - exists st. assert (pos st = length lines) as Heq by lia.
    simpl. rewrite (lookup_ge_None_2 lines (pos st)) by lia.
    rewrite drop_ge by lia. simpl. rewrite app_nil_r. auto.
  - simpl. destruct (lines !! pos st) as [raw|] eqn:Hraw.
    + pose proof (scan_step_pos lines st raw Hraw) as Hstep.
      destruct (IH (scan_step lines st raw)) as (st' & Hrun & Hend & Hsec);
        [lia | lia |].
      exists st'. split; [exact Hrun |]. split; [exact Hend |].
      rewrite Hsec. rewrite (drop_S _ _ _ Hraw). clear Hrun Hend Hsec Hstep.
      unfold scan_step. simpl sections_from.
      destruct (chapter_match (strip raw)) as [[g1 g2]|]; simpl.
      { now rewrite Nat.add_1_r. }
      destruct (section_match (strip raw)) as [[g1 g2]|]; simpl.
      2: { now rewrite Nat.add_1_r. }
      rewrite collect_body_run. simpl.
      rewrite Nat.add_1_r, <- drop_drop, sections_from_skip_run.
      destruct (truthy _); simpl; [| reflexivity].
      now rewrite <- app_assoc.
    + apply lookup_ge_None_1 in Hraw.
      exists st. rewrite drop_ge by lia. simpl. rewrite app_nil_r.
      repeat split. lia.
Qed.

(** The records of a text are those of its lines, read one by one from the
    initial context. *)
Lemma parse_lines_sections (lines : list string) :
  parse_lines lines = Some (sections_from (ChapterNum 0) "Unknown" lines).
Proof.
  unfold parse_lines.
  destruct (scan_loop_sections (length lines) lines scan_init)
    as (st' & -> & _ & Hsec); simpl; [lia | lia |].
  now rewrite Hsec.
Qed.

(** ** Shape of the records *)

Lemma sections_from_desc num title (ls : list string) :
  Forall (fun r => section_desc r <> "") (sections_from num title ls).
Proof.
  revert num title. induction ls as [|raw ls IH]; intros num title; simpl;
    [constructor |].
  destruct (chapter_match (strip raw)) as [[g1 g2]|]; [apply IH |].
  destruct (section_match (strip raw)) as [[g1 g2]|]; [| apply IH].
  destruct (truthy _) eqn:Ht; simpl; [| apply IH].
  constructor; [| apply IH]. simpl. now apply truthy_true.
Qed.

Lemma sections_from_context num title (ls : list string) :
  Forall (fun raw => chapter_match (strip raw) = None) ls ->
  Forall (fun r => chapter r = num /\ chapter_title r = title)
    (sections_from num title ls).
Proof.
  induction 1 as [|raw ls Hraw _ IH]; simpl; [constructor |].
  rewrite Hraw.
  destruct (section_match (strip raw)) as [[g1 g2]|]; [| exact IH].
  destruct (truthy _); simpl; [| exact IH].
  constructor; [| exact IH]. simpl. auto.
Qed.

(** A chapter heading replaces the context, whatever it was. *)
Lemma sections_from_chapter num title num' title' raw (rest : list string) :
  chapter_match (strip raw) <> None ->
  sections_from num title (raw :: rest)
  = sections_from num' title' (raw :: rest).
Proof.
  simpl. destruct (chapter_match (strip raw)) as [[g1 g2]|]; congruence.
Qed.

(** A body ends at the first heading, whatever follows it. *)
Lemma body_run_app_heading (pre : list string) h (rest : list string) :
  is_heading (strip h) = true ->
  body_run (pre ++ h :: rest) = body_run pre.
Proof.
  intros Hh. induction pre as [|raw pre IH]; simpl.
  - now rewrite Hh.
  - destruct (is_heading (strip raw)); [reflexivity | now rewrite IH].
Qed.

(** A section heading that runs straight into the next heading leaves no
    trace in the records. *)
Lemma sections_from_empty_body num title (pre : list string) h h2 post :
  classify h = KSection ->
  is_heading (strip h2) = true ->
  sections_from num title (pre ++ h :: h2 :: post)
  = sections_from num title (pre ++ h2 :: post).
Proof.
  intros Hh Hh2. unfold classify in Hh.
  destruct (chapter_match (strip h)) eqn:Hc; [discriminate |].
  destruct (section_match (strip h)) as [[g1 g2]|] eqn:Hs; [| discriminate].
  assert (is_heading (strip h) = true) as Hhead.
  { unfold is_heading. now rewrite Hc, Hs. }
  revert num title. induction pre as [|raw pre IH]; intros num title.
  - cbn [app sections_from body_run]. rewrite Hc, Hs, Hh2. reflexivity.
  - cbn [app sections_from].
    rewrite !body_run_app_heading by assumption.
    destruct (chapter_match (strip raw)) as [[c1 c2]|]; [apply IH |].
    destruct (section_match (strip raw)) as [[s1 s2]|]; [| apply IH].
    now rewrite IH.
Qed.

(** ** The chapter pattern on headings without a title *)

(** A greedy run over matching characters up to the end of the text, with
    a continuation that needs one more character: the last one is given
    back. *)
Lemma rep_gives_back {A} (a : atom) (n : string) (c : ascii)
    (k : string -> option A) (r : A) :
  all_match a n = true ->
  atom_matches true a c = true ->
  k EmptyString = None ->
  k (String c EmptyString) = Some r ->
  rep true a 0 (n ++ String c EmptyString)%string k = Some r.
Proof.
  intros Hn Hc Hend Hlast. induction n as [|x n IH].
  - rewrite append_nil_l. cbn [rep]. rewrite Hc. cbn [rep Nat.eqb].
    now rewrite Hend.
  - cbn [all_match] in Hn. apply andb_prop in Hn as [Hx Hn].
    rewrite append_cons. cbn [rep]. rewrite Hx. cbn [Nat.pred].
    now rewrite (IH Hn).
Qed.

Lemma rep_no_match {A} (a : atom) (min : nat) (c : ascii) (s : string)
    (k : string -> option A) :
  atom_matches true a c = false ->
  rep true a min (String c s) k
  = if Nat.eqb min 0 then k (String c s) else None.
Proof. intros Hc. cbn [rep]. now rewrite Hc. Qed.

Lemma substring_prefix (n t : string) :
  substring 0 (String.length (n ++ t) - String.length t) (n ++ t)%string = n.
Proof.
  induction n as [|x n IH].
  - rewrite append_nil_l, Nat.sub_diag. now destruct t.
  - rewrite append_cons. cbn [String.length].
    replace (S (String.length (n ++ t)) - String.length t)
      with (S (String.length (n ++ t) - String.length t)).
    + cbn [substring]. now rewrite IH.
    + assert (String.length t <= String.length (n ++ t)).
      { clear. induction n; [rewrite append_nil_l; lia |].
        rewrite append_cons. cbn [String.length]. lia. }
      lia.
Qed.

Lemma numeral_char (a : atom) (c : ascii) :
  a = roman_set \/ a = ASet false [IDigit] ->
  atom_matches true a c = true ->
  atom_matches true (ASet false [ISpace]) c = false
  /\ atom_matches true (ASet false [IChar ":"%char; ISpace]) c = false
  /\ atom_matches true not_newline c = true.
Proof.
  intros [-> | ->];
    destruct c as [[|] [|] [|] [|] [|] [|] [|] [|]]; try discriminate;
    intros _; repeat split; reflexivity.
Qed.

Lemma after_numeral_end (whole : string) : after_numeral whole "" = None.
Proof. reflexivity. Qed.

Lemma after_numeral_last (a : atom) (n : string) (c : ascii) :
  a = roman_set \/ a = ASet false [IDigit] ->
  atom_matches true a c = true ->
  after_numeral (n ++ String c "") (String c "")
  = Some [(2, String c ""); (1, n)].
Proof.
  intros Ha Hc. destruct (numeral_char a c Ha Hc) as (_ & Hsep & Hnl).
  unfold after_numeral. rewrite rep_no_match by exact Hsep.
  cbn [Nat.eqb rep]. rewrite Hnl. cbn [Nat.pred Nat.eqb rep].
  now rewrite substring_prefix.
Qed.

Lemma numeral_gives_back (a : atom) (x : ascii) (n : string) (c : ascii) :
  a = roman_set \/ a = ASet false [IDigit] ->
  atom_matches true a x = true ->
  all_match a n = true ->
  atom_matches true a c = true ->
  rep true a 1 (String x (n ++ String c ""))
    (after_numeral (String x (n ++ String c "")))
  = Some [(2, String c ""); (1, String x n)].
Proof.
  intros Ha Hx Hn Hc. cbn [rep]. rewrite Hx. cbn [Nat.pred].
  rewrite (rep_gives_back a n c _ [(2, String c ""); (1, String x n)]);
    auto using after_numeral_end.
  rewrite <- (append_cons x n). now apply (after_numeral_last a).
Qed.

Lemma rep_space {A} (s : string) (k : string -> option A) :
  rep true (ASet false [ISpace]) 1 (String " " s) k
  = match rep true (ASet false [ISpace]) 0 s k with
    | Some res => Some res
    | None => None
    end.
Proof. reflexivity. Qed.

Lemma chapter_tail_numeral (a : atom) (x : ascii) (n : string) (c : ascii) :
  a = roman_set \/ a = ASet false [IDigit] ->
  atom_matches true a x = true ->
  all_match a n = true ->
  atom_matches true a c = true ->
  run true chapter_tail (String " " (String x (n ++ String c ""))) []
    (fun _ g => Some g)
  = Some [(2, String c ""); (1, String x n)].
Proof.
  intros Ha Hx Hn Hc.
  destruct (numeral_char a x Ha Hx) as (Hsp & _ & _).
  unfold chapter_tail. cbn [run].
  rewrite rep_space. rewrite rep_no_match by exact Hsp. cbn [Nat.eqb].
  fold (after_numeral (String x (n ++ String c ""))).
  destruct Ha as [-> | ->].
  - rewrite numeral_gives_back; auto.
  - assert (atom_matches true roman_set x = false) as Hroman.
    { clear -Hx. destruct x as [[|] [|] [|] [|] [|] [|] [|] [|]];
        try discriminate; reflexivity. }
    rewrite rep_no_match by exact Hroman. cbn [Nat.eqb].
    rewrite numeral_gives_back; auto.
Qed.

(** A chapter heading that ends with its numeral, of two characters or
    more: the numeral loses its last character to the title. *)
Lemma chapter_match_without_title (a : atom) (x : ascii) (n : string)
    (c : ascii) :
  a = roman_set \/ a = ASet false [IDigit] ->
  atom_matches true a x = true ->
  all_match a n = true ->
  atom_matches true a c = true ->
  chapter_match ("CHAPTER " ++ String x (n ++ String c ""))
  = Some (String x n, String c "").
Proof.
  intros Ha Hx Hn Hc.
  unfold chapter_match, re_match, chapter_pattern.
  rewrite !append_cons, append_nil_l.
  cbn [run lit].
  repeat match goal with
  | |- context [atom_matches true (ALit ?p) ?b] =>
      change (atom_matches true (ALit p) b) with true
  end.
  cbn iota. now rewrite (chapter_tail_numeral a).
Qed.

(** A chapter heading whose numeral has a single character is no heading
    for the scan. *)
Lemma chapter_match_single (a : atom) (c : ascii) :
  a = roman_set \/ a = ASet false [IDigit] ->
  atom_matches true a c = true ->
  chapter_match ("CHAPTER " ++ String c "") = None.
Proof.
  intros Ha Hc.
  assert (atom_matches true roman_set c = true
          \/ atom_matches true (ASet false [IDigit]) c = true) as Hnum
    by (destruct Ha as [-> | ->]; auto).
  clear Ha Hc.
  destruct c as [[|] [|] [|] [|] [|] [|] [|] [|]];
    try (destruct Hnum; discriminate); reflexivity.
Qed.

(** ** Main theorems about the corpus structurer *)

(** C1.  The end-to-end scenario: a chapter heading and two sections, each
    with a one-line body, give exactly two records, in order, with chapter
    "I", chapter title "General", section numbers 1 and 2, and the titles
    and bodies of the text. *)
Theorem parse_scenario :
  parse_slpc_sections
    ("CHAPTER I General" ++ nl ++
     "Section 1. Short title" ++ nl ++
     "This Code may be called the Penal Code." ++ nl ++
     "Section 2. Punishment" ++ nl ++
     "Every person liable shall be punished.")%string
  = Some
      [ {| chapter := ChapterText "I"; chapter_title := "General";
           Section_ := 1; section_title := "Short title";
           section_desc := "This Code may be called the Penal Code." |};
        {| chapter := ChapterText "I"; chapter_title := "General";
           Section_ := 2; section_title := "Punishment";
           section_desc := "Every person liable shall be punished." |} ].
Proof. vm_compute. reflexivity. Qed.

(** C2.  Every record the structurer emits has a non-empty body, and a
    section heading immediately followed by another heading contributes no
    record: the output is the one of the text without that heading. *)
Theorem parse_bodies_nonempty (text : string) :
  exists rs,
    parse_slpc_sections text = Some rs
    /\ Forall (fun r => section_desc r <> "") rs
    /\ forall pre h h2 post,
         split_nl text = pre ++ h :: h2 :: post ->
         classify h = KSection ->
         is_heading (strip h2) = true ->
         parse_lines (pre ++ h2 :: post) = Some rs.
Proof.
  unfold parse_slpc_sections. rewrite parse_lines_sections.
  eexists. split; [reflexivity |]. split; [apply sections_from_desc |].
  intros pre h h2 post -> Hh Hh2.
  rewrite parse_lines_sections. f_equal. symmetry.
  now apply sections_from_empty_body.
Qed.

Lemma parse_bodies_nonempty_witness :
  parse_lines ["Section 2. B"; "body"]
  = parse_slpc_sections
      ("Section 1. A" ++ nl ++ "Section 2. B" ++ nl ++ "body")%string.
Proof.
  destruct (parse_bodies_nonempty
              ("Section 1. A" ++ nl ++ "Section 2. B" ++ nl ++ "body")%string)
    as (rs & Hrs & _ & Hskip).
  rewrite Hrs.
  apply (Hskip [] "Section 1. A" "Section 2. B" ["body"]);
    vm_compute; reflexivity.
Defined.


(** C7.  What the chapter pattern does on headings without a title: the
    last character of the numeral is taken as the title, and a heading
    whose numeral has one character is not recognised at all. *)
Theorem chapter_heading_without_title :
  chapter_match "CHAPTER XVI" = Some ("XV", "I")
  /\ chapter_match "CHAPTER 16" = Some ("1", "6")
  /\ chapter_match "CHAPTER I" = None
  /\ chapter_match "CHAPTER XVI Of Offences" = Some ("XVI", "Of Offences")
  /\ parse_slpc_sections
       ("CHAPTER XVI" ++ nl ++ "Section 1. Short title" ++ nl ++
        "This Code may be called the Penal Code.")%string
     = Some
         [ {| chapter := ChapterText "XV"; chapter_title := "I";
              Section_ := 1; section_title := "Short title";
              section_desc := "This Code may be called the Penal Code." |} ].
Proof. vm_compute. repeat split; reflexivity. Qed.

(** C9.  The scan terminates on every text: each pass of the outer loop
    moves the line index strictly forward without leaving the lines, so
    as many passes as there are lines bring the loop to its end, and the
    structurer returns. *)
Theorem parse_terminates (text : string) :
  (forall st raw,
     split_nl text !! pos st = Some raw ->
     pos st < pos (scan_step (split_nl text) st raw) <= length (split_nl text))
  /\ (forall fuel,
        length (split_nl text) <= fuel ->
        exists st,
          scan_loop fuel (split_nl text) scan_init = Some st
          /\ pos st = length (split_nl text)
          /\ parse_slpc_sections text = Some (sections st)).
Proof.
  split; [intros st raw; apply scan_step_pos |].
  intros fuel Hfuel.
  destruct (scan_loop_sections fuel (split_nl text) scan_init)
    as (st & Hrun & Hend & Hsec); simpl; [lia | lia |].
  exists st. split; [exact Hrun |]. split; [exact Hend |].
  unfold parse_slpc_sections. now rewrite parse_lines_sections, Hsec.
Qed.

Lemma parse_terminates_witness :
  exists st,
    scan_loop 7 (split_nl ("Section 1. A" ++ nl ++ "body")%string) scan_init
    = Some st
    /\ pos st = 2
    /\ parse_slpc_sections ("Section 1. A" ++ nl ++ "body")%string
       = Some (sections st).
Proof.
  apply (proj2 (parse_terminates ("Section 1. A" ++ nl ++ "body")%string) 7).
  vm_compute. lia.
Defined.

(** * Properties of the index builder *)

(** ** Documents *)

Lemma prepare_document_record (r : SectionRecord) :
  prepare_document (record_dict r) = Ok (document_of r).
Proof. reflexivity. Qed.

Lemma comprehension_records (rs : list SectionRecord) :
  comprehension prepare_document (map record_dict rs)
  = Ok (map document_of rs).
Proof.
  induction rs as [|r rs IH]; [reflexivity |].
  cbn [map comprehension]. rewrite prepare_document_record, IH.
  reflexivity.
Qed.

Lemma prepare_documents_records (rs : list SectionRecord) :
  prepare_documents (records_value rs) = Ok (map document_of rs).
Proof. apply comprehension_records. Qed.

(** C4.  For the records handed to the builder, [prepare_documents] makes
    one document per record, in order; its text is the header
    "Section n: title", a blank line and the body, and its metadata holds
    the chapter, the chapter title, the section number and the section
    title of the record, and nothing else. *)
Theorem prepare_documents_shape (rs : list SectionRecord) :
  exists docs,
    prepare_documents (records_value rs) = Ok docs
    /\ length docs = length rs
    /\ forall i r,
         rs !! i = Some r ->
         exists d,
           docs !! i = Some d
           /\ page_content d
              = ("Section " ++ repr_int (Section_ r) ++ ": " ++ section_title r
                   ++ nl ++ nl ++ section_desc r)%string
           /\ metadata d
              = [("chapter", chapter_value (chapter r));
                 ("chapter_title", PyStr (chapter_title r));
                 ("section", PyInt (Section_ r));
                 ("section_title", PyStr (section_title r))].
Proof.
  exists (map document_of rs). split; [apply prepare_documents_records |].
  split; [apply length_map |].
  intros i r Hr. exists (document_of r).
  split; [| split; reflexivity].
  now rewrite list_lookup_fmap, Hr.
Qed.

Lemma prepare_documents_shape_witness :
  exists docs d,
    prepare_documents
      (records_value
         [{| chapter := ChapterText "I"; chapter_title := "General";
             Section_ := 2; section_title := "Punishment";
             section_desc := "Every person liable shall be punished." |}])
    = Ok docs
    /\ docs !! 0 = Some d
    /\ page_content d
       = ("Section 2: Punishment" ++ nl ++ nl
            ++ "Every person liable shall be punished.")%string.
Proof.
  destruct (prepare_documents_shape
              [{| chapter := ChapterText "I"; chapter_title := "General";
                  Section_ := 2; section_title := "Punishment";
                  section_desc := "Every person liable shall be punished." |}])
    as (docs & Hdocs & _ & Hshape).
  destruct (Hshape 0 _ eq_refl) as (d & Hd & Hpage & _).
  exists docs, d. split; [exact Hdocs |]. split; [exact Hd |].
  rewrite Hpage. reflexivity.
Defined.

(** ** The corpus file *)

Module JsonFacts.
Import Json.

(** Bring appends to the right and literal prefixes to the front. *)
Ltac norm_append :=
  repeat progress
    rewrite ?append_assoc, ?append_cons, ?append_nil_l.

(** Decide the tests on known characters and take the branches. *)
Ltac decide_tests :=
  repeat match goal with
  | |- context [Ascii.eqb ?a ?b] =>
      let r := eval vm_compute in (Ascii.eqb a b) in
      match r with true => idtac | false => idtac end;
      change (Ascii.eqb a b) with r
  | |- context [is_ws ?a] =>
      let r := eval vm_compute in (is_ws a) in
      match r with true => idtac | false => idtac end;
      change (is_ws a) with r
  end;
  cbn iota.

Ltac read_on :=
  repeat progress (cbn [skip_ws mbind option_bind]; decide_tests).


Lemma stop_comma (s : string) : stop (String ","%char s).
Proof. now left. Qed.

Lemma stop_newline_indent (level : nat) (s : string) :
  stop (newline_indent level ++ s)%string.
Proof. now right. Qed.

(** *** White space *)

Lemma skip_ws_spaces (n : nat) (s : string) :
  skip_ws (spaces n ++ s)%string = skip_ws s.
Proof. induction n as [|n IH]; [reflexivity | exact IH]. Qed.

Lemma skip_ws_newline_indent (level : nat) (s : string) :
  skip_ws (newline_indent level ++ s)%string = skip_ws s.
Proof.
  unfold newline_indent, nl. rewrite append_cons, append_nil_l.
  cbn [skip_ws]. change (is_ws nl_char) with true. cbn iota.
  apply skip_ws_spaces.
Qed.

(** *** String literals *)

Lemma scanstring_escape_char (c : ascii) (t : string) :
  scanstring (escape_char c ++ t)%string = push c (scanstring t).
Proof.
  destruct c as [[|] [|] [|] [|] [|] [|] [|] [|]]; reflexivity.
Qed.

Lemma scanstring_escape (s rest : string) :
  scanstring (escape s ++ String dquote rest)%string = Some (s, rest).
Proof.
  induction s as [|c s IH]; [reflexivity |].
  cbn [escape]. rewrite append_assoc, scanstring_escape_char, IH.
  reflexivity.
Qed.

Lemma scan_once_string (fuel : nat) (s rest : string) :
  1 <= fuel ->
  scan_once fuel (encode_basestring s ++ rest)%string = Some (PyStr s, rest).
Proof.
  intros Hfuel. destruct fuel as [|fuel]; [lia |].
  unfold encode_basestring. rewrite append_cons, append_assoc, append_cons.
  rewrite append_nil_l. cbn [scan_once].
  change (Ascii.eqb dquote dquote) with true. cbn iota.
  now rewrite scanstring_escape.
Qed.

(** *** Integers *)

Lemma stop_not_digit (rest : string) :
  stop rest ->
  exists c t, rest = String c t /\ is_digit c = false
              /\ Ascii.eqb c "."%char = false
              /\ Ascii.eqb c "e"%char = false
              /\ Ascii.eqb c "E"%char = false
              /\ is_ws c = (if Ascii.eqb c nl_char then true else false).
Proof.
  destruct rest as [|c t]; [intros [] |].
  intros [-> | ->]; eexists; exists t; (split; [reflexivity |]);
    repeat split; reflexivity.
Qed.

Lemma span_digits_uint (d : Decimal.uint) (rest : string) :
  stop rest ->
  span_digits (NilEmpty.string_of_uint d ++ rest)%string
  = (NilEmpty.string_of_uint d, rest).
Proof.
  intros Hstop. induction d; cbn [NilEmpty.string_of_uint];
    rewrite ?append_cons; cbn [span_digits];
    try (change (is_digit _) with true; cbn iota; now rewrite IHd).
  rewrite append_nil_l.
  destruct (stop_not_digit _ Hstop) as (c & t & -> & Hc & _).
  cbn [span_digits]. now rewrite Hc.
Qed.

(** The decimal digits of a positive number do not start with a zero. *)
Lemma to_uint_normal (p : positive) :
  Decimal.unorm (Pos.to_uint p) = Pos.to_uint p.
Proof.
  rewrite <- (DecimalPos.Unsigned.to_of (Pos.to_uint p)).
  now rewrite DecimalPos.Unsigned.of_to.
Qed.

Lemma to_uint_head (p : positive) :
  match Pos.to_uint p with
  | Decimal.Nil | Decimal.D0 _ => False
  | _ => True
  end.
Proof.
  pose proof (to_uint_normal p) as Hnorm.
  pose proof (DecimalPos.Unsigned.to_uint_nonzero p) as Hnz.
  destruct (Pos.to_uint p) as [|d| | | | | | | | |] eqn:Hp; try exact I.
  - now apply (DecimalPos.Unsigned.to_uint_nonnil p).
  - rewrite DecimalFacts.unorm_D0 in Hnorm.
    destruct (Decimal.uint_eq_dec d Decimal.Nil) as [-> | Hd].
    + now apply Hnz.
    + pose proof (DecimalFacts.nb_digits_unorm d Hd) as Hlen.
      rewrite Hnorm in Hlen. cbn in Hlen. lia.
Qed.

Lemma py_int_repr (z : Z) : py_int (repr_int z) = Some z.
Proof.
  unfold py_int, repr_int.
  rewrite NilZero.isi.
  - cbn. now rewrite DecimalZ.of_to.
  - destruct z; cbn; try discriminate.
    intros [= H]. now apply (DecimalPos.Unsigned.to_uint_nonnil p).
  - destruct z; cbn; try discriminate.
    intros [= H]. now apply (DecimalPos.Unsigned.to_uint_nonnil p).
Qed.

Lemma scan_fraction_stop (rest : string) :
  stop rest -> scan_fraction rest = ("", rest).
Proof.
  intros Hstop.
  destruct (stop_not_digit _ Hstop) as (c & t & -> & _ & Hdot & _).
  unfold scan_fraction. now rewrite Hdot.
Qed.

Lemma scan_exponent_stop (rest : string) :
  stop rest -> scan_exponent rest = ("", rest).
Proof.
  intros Hstop.
  destruct (stop_not_digit _ Hstop) as (c & t & -> & _ & _ & He & HE & _).
  unfold scan_exponent. now rewrite He, HE.
Qed.

Lemma scan_number_digits (sign digits rest : string) z :
  stop rest ->
  scan_sign (sign ++ digits ++ rest)%string = (sign, (digits ++ rest)%string) ->
  scan_integer (digits ++ rest)%string = Some (digits, rest) ->
  py_int (sign ++ digits)%string = Some z ->
  scan_number (sign ++ digits ++ rest)%string = Some (PyInt z, rest).
Proof.
  intros Hstop Hsign Hint Hz. unfold scan_number.
  rewrite Hsign. rewrite Hint. cbn [mbind option_bind].
  rewrite (scan_fraction_stop _ Hstop), (scan_exponent_stop _ Hstop).
  rewrite Hz. reflexivity.
Qed.

Lemma scan_integer_uint (p : positive) (rest : string) :
  stop rest ->
  scan_integer (NilZero.string_of_uint (Pos.to_uint p) ++ rest)%string
  = Some (NilZero.string_of_uint (Pos.to_uint p), rest)
  /\ scan_sign (NilZero.string_of_uint (Pos.to_uint p) ++ rest)%string
     = ("", (NilZero.string_of_uint (Pos.to_uint p) ++ rest)%string).
Proof.
  intros Hstop. pose proof (to_uint_head p) as Hhead.
  destruct (Pos.to_uint p) as [|d|d|d|d|d|d|d|d|d|d]; try contradiction;
    cbn [NilZero.string_of_uint NilEmpty.string_of_uint];
    rewrite append_cons; (split; [| reflexivity]);
    cbn [scan_integer];
    match goal with
    | |- context [Ascii.eqb ?a ?b] => change (Ascii.eqb a b) with false
    end;
    match goal with
    | |- context [is_digit ?a] => change (is_digit a) with true
    end;
    cbn iota; now rewrite span_digits_uint.
Qed.

Lemma scan_number_repr (z : Z) (rest : string) :
  stop rest -> scan_number (repr_int z ++ rest)%string = Some (PyInt z, rest).
Proof.
  intros Hstop. pose proof (py_int_repr z) as Hz. revert Hz.
  unfold repr_int.
  destruct z as [|p|p]; cbn [Z.to_int NilZero.string_of_int]; intros Hz.
  - apply (scan_number_digits "" "0" rest 0 Hstop); try reflexivity.
  - destruct (scan_integer_uint p rest Hstop) as [Hint Hsign].
    apply (scan_number_digits "" _ rest _ Hstop); rewrite ?append_nil_l;
      assumption.
  - destruct (scan_integer_uint p rest Hstop) as [Hint Hsign].
    rewrite append_cons.
    apply (scan_number_digits "-" _ rest _ Hstop); rewrite ?append_nil_l;
      try assumption.
    reflexivity.
Qed.

(** *** Values *)

Lemma parses_string level (s : string) : parses level 1 (PyStr s).
Proof.
  split; [reflexivity |].
  intros fuel rest Hfuel _. now apply scan_once_string.
Qed.

Lemma repr_int_head (z : Z) :
  exists c t, repr_int z = String c t 
     /\ (c = "-"%char \/ is_digit c = true).
Proof.
  unfold repr_int. destruct z as [|p|p]; cbn [Z.to_int NilZero.string_of_int].
  - exists "0"%char, "". auto.
  - pose proof (to_uint_head p) as Hhead.
    destruct (Pos.to_uint p); try contradiction;
      cbn [NilZero.string_of_uint NilEmpty.string_of_uint];
      eexists; eexists; (split; [reflexivity |]); right; reflexivity.
  - eexists; eexists; (split; [reflexivity |]); now left.
Qed.

Lemma scan_once_number (fuel : nat) c (s : string) r :
  1 <= fuel ->
  c = "-"%char \/ is_digit c = true ->
  scan_number (String c s) = Some r ->
  scan_once fuel (String c s) = Some r.
Proof.
  intros Hfuel Hc Hnum. destruct fuel as [|fuel]; [lia |].
  destruct Hc as [-> | Hc].
  - cbn [scan_once]. 
    change (Ascii.eqb "-" dquote) with false.
    change (Ascii.eqb "-" "{") with false.
    change (Ascii.eqb "-" "[") with false. cbn iota.
    cbn [after_word]. 
    change (Ascii.eqb "n" "-") with false.
    change (Ascii.eqb "t" "-") with false.
    change (Ascii.eqb "f" "-") with false. cbn iota.
    now rewrite Hnum.
  - destruct c as [[|] [|] [|] [|] [|] [|] [|] [|]]; try discriminate Hc;
      cbn [scan_once after_word];
      repeat match goal with
      | |- context [Ascii.eqb ?a ?b] => 
          change (Ascii.eqb a b) with false
      end; cbn iota; now rewrite Hnum.
Qed.

Lemma parses_int level (z : Z) : parses level 1 (PyInt z).
Proof.
  unfold parses. cbn [encode].
  destruct (repr_int_head z) as (c & t & Hrepr & Hc). split.
  - intros rest. rewrite Hrepr, append_cons. cbn [skip_ws].
    destruct Hc as [-> | Hc]; [reflexivity |].
    destruct c as [[|] [|] [|] [|] [|] [|] [|] [|]]; try discriminate Hc;
      reflexivity.
  - intros fuel rest Hfuel Hstop.
    pose proof (scan_number_repr z rest Hstop) as Hnum.
    rewrite Hrepr, append_cons in *.
    now apply scan_once_number.
Qed.

Lemma parses_chapter level (c : chapter_id) : parses level 1 (chapter_value c).
Proof. destruct c; [apply parses_int | apply parses_string]. Qed.

(** *** Objects *)

Lemma encode_dict level kv (d : list (string * pyval)) :
  encode level (PyDict (kv :: d))
  = ("{" ++ newline_indent (S level)
         ++ join (separator (S level)) (map (member_text (S level)) (kv :: d))
         ++ newline_indent level ++ "}")%string.
Proof. reflexivity. Qed.

Lemma encode_list level v (l : list pyval) :
  encode level (PyList (v :: l))
  = ("[" ++ newline_indent (S level)
         ++ join (separator (S level)) (map (encode (S level)) (v :: l))
         ++ newline_indent level ++ "]")%string.
Proof. reflexivity. Qed.

Lemma join_cons sep a b (l : list string) :
  join sep (a :: b :: l) = (a ++ sep ++ join sep (b :: l))%string.
Proof. reflexivity. Qed.

(** The members of an object, read from the text that follows the opening
    quote of the first key. *)
Lemma object_pairs_members level (ms : list (string * pyval)) :
  forall k v fuel rest,
    Forall (fun kv => parses (S level) 1 (snd kv)) ((k, v) :: ms) ->
    length ms + 2 <= fuel ->
    exists tail,
      join (separator (S level)) (map (member_text (S level)) ((k, v) :: ms))
      = String dquote tail
      /\ object_pairs fuel (tail ++ newline_indent level ++ "}" ++ rest)
         = Some ((k, v) :: ms, rest).
Proof.
  induction ms as [|[k' v'] ms IH]; intros k v fuel rest Hall Hfuel.
  - apply Forall_cons in Hall as [[Hws Hv] _]. cbn [snd] in Hws, Hv.
    exists (escape k ++ String dquote (": " ++ encode (S level) v))%string.
    split.
    { cbn [map join]. unfold member_text, encode_basestring. cbn [fst snd].
      now norm_append. }
    destruct fuel as [|fuel]; [cbn in Hfuel; lia |].
    cbn [object_pairs]. norm_append. rewrite scanstring_escape. read_on.
    rewrite Hws, Hv; [| cbn in Hfuel; lia | apply stop_newline_indent].
    read_on. rewrite skip_ws_newline_indent. read_on. reflexivity.
  - apply Forall_cons in Hall as [[Hws Hv] Hall]. cbn [snd] in Hws, Hv.
    destruct fuel as [|fuel]; [cbn in Hfuel; lia |].
    destruct (IH k' v' fuel rest Hall) as (tail & Htail & Hpairs);
      [cbn in Hfuel |- *; lia |].
    exists (escape k ++ String dquote (": " ++ encode (S level) v)
              ++ separator (S level) ++ String dquote tail)%string.
    split.
    { cbn [map]. rewrite join_cons. cbn [map] in Htail. rewrite Htail.
      unfold member_text at 1, encode_basestring. cbn [fst snd].
      now norm_append. }
    cbn [object_pairs]. norm_append. rewrite scanstring_escape. read_on.
    rewrite Hws, Hv; [| cbn in Hfuel; lia | apply stop_comma].
    unfold separator. norm_append. read_on.
    rewrite skip_ws_newline_indent. read_on.
    revert Hpairs. norm_append. intros ->. reflexivity.
Qed.

Lemma parses_dict level (k : string) v (ms : list (string * pyval)) :
  Forall (fun kv => parses (S level) 1 (snd kv)) ((k, v) :: ms) ->
  dict_of_pairs ((k, v) :: ms) = (k, v) :: ms ->
  parses level (length ms + 3) (PyDict ((k, v) :: ms)).
Proof.
  intros Hall Hdict. split; [reflexivity |].
  intros fuel rest Hfuel _.
  destruct fuel as [|fuel]; [lia |].
  destruct (object_pairs_members level ms k v fuel rest Hall)
    as (tail & Htail & Hpairs); [lia |].
  rewrite encode_dict, Htail. norm_append.
  cbn [scan_once]. decide_tests.
  rewrite skip_ws_newline_indent. read_on.
  revert Hpairs. norm_append. intros ->. read_on.
  now rewrite Hdict.
Qed.

Lemma parses_record (r : SectionRecord) : parses 1 7 (record_dict r).
Proof.
  apply (parses_dict 1 "chapter" (chapter_value (chapter r))
           [("chapter_title", PyStr (chapter_title r));
            ("Section", PyInt (Section_ r));
            ("section_title", PyStr (section_title r));
            ("section_desc", PyStr (section_desc r))]);
    [| reflexivity].
  repeat (apply Forall_cons; split;
          [cbn [snd]; auto using parses_chapter, parses_int, parses_string |]).
  constructor.
Qed.

(** *** Arrays *)

Lemma array_items_list level cost (vs : list pyval) :
  forall v fuel rest,
    Forall (parses (S level) cost) (v :: vs) ->
    length vs + cost + 1 <= fuel ->
    array_items fuel
      (join (separator (S level)) (map (encode (S level)) (v :: vs))
         ++ newline_indent level ++ "]" ++ rest)
    = Some (v :: vs, rest).
Proof.
  induction vs as [|v' vs IH]; intros v fuel rest Hall Hfuel.
  - apply Forall_cons in Hall as [[Hws Hv] _].
    destruct fuel as [|fuel]; [cbn in Hfuel; lia |].
    cbn [map join array_items].
    rewrite Hv; [| cbn in Hfuel; lia | apply stop_newline_indent].
    read_on. rewrite skip_ws_newline_indent. norm_append. read_on.
    reflexivity.
  - apply Forall_cons in Hall as [[Hws Hv] Hall].
    destruct fuel as [|fuel]; [cbn in Hfuel; lia |].
    cbn [map]. rewrite join_cons. cbn [array_items]. norm_append.
    rewrite Hv; [| cbn in Hfuel; lia | apply stop_comma].
    unfold separator. norm_append. read_on.
    rewrite skip_ws_newline_indent.
    assert (length vs + cost + 1 <= fuel) as Hfuel'
      by (cbn in Hfuel; lia).
    pose proof (IH v' fuel rest Hall Hfuel') as Hitems.
    apply Forall_cons in Hall as [[Hws' _] _].
    cbn [map] in Hitems. revert Hitems.
    destruct vs as [|v'' vs]; [cbn [map join] | cbn [map]; rewrite !join_cons];
      unfold separator; norm_append; rewrite Hws'; intros ->; reflexivity.
Qed.

(** *** The whole file *)

Lemma length_append (a b : string) :
  String.length (a ++ b) = String.length a + String.length b.
Proof.
  induction a as [|c a IH]; [reflexivity |].
  rewrite append_cons. cbn [String.length]. now rewrite IH.
Qed.

Lemma join_length sep (xs : list string) :
  Forall (fun x => 1 <= String.length x) xs ->
  length xs <= String.length (join sep xs).
Proof.
  induction 1 as [|x xs Hx _ IH]; [cbn; lia |].
  destruct xs as [|y xs]; [cbn in *; lia |].
  rewrite join_cons, !length_append. cbn [length] in *. lia.
Qed.

Lemma join_head sep x (xs : list string) (t : string) :
  exists t', (join sep (x :: xs) ++ t = x ++ t')%string.
Proof.
  destruct xs as [|y xs]; [now exists t |].
  exists (sep ++ join sep (y :: xs) ++ t)%string.
  rewrite join_cons. now norm_append.
Qed.

Lemma scan_once_array (fuel : nat) (s : string) k rest items r :
  skip_ws s = String k rest ->
  Ascii.eqb k "]" = false ->
  array_items fuel (String k rest) = Some (items, r) ->
  scan_once (S fuel) (String "[" s) = Some (PyList items, r).
Proof.
  intros Hs Hk Hitems. cbn [scan_once]. decide_tests.
  now rewrite Hs, Hk, Hitems.
Qed.

Lemma encode_list_length level v (vs : list pyval) :
  Forall (fun x => 1 <= String.length (encode (S level) x)) (v :: vs) ->
  length vs + 4 <= String.length (encode level (PyList (v :: vs))).
Proof.
  intros Hne. rewrite encode_list, !length_append.
  pose proof (join_length (separator (S level))
                (map (encode (S level)) (v :: vs))) as Hlen.
  rewrite length_map in Hlen. cbn [length] in Hlen.
  assert (1 <= String.length (newline_indent level)) as Hnl.
  { unfold newline_indent, nl. rewrite length_append.
    cbn [String.length]. lia. }
  cbn [String.length].
  assert (length vs < String.length
            (join (separator (S level)) (map (encode (S level)) (v :: vs)))).
  { apply Hlen. apply Forall_forall. intros x Hx.
    apply list_elem_of_In, in_map_iff in Hx as (y & <- & Hy).
    rewrite Forall_forall in Hne. apply Hne. now apply list_elem_of_In. }
  lia.
Qed.

Lemma encode_record_head level (r : SectionRecord) :
  exists t, encode level (record_dict r) = String "{" t.
Proof. eexists. reflexivity. Qed.

Lemma records_parse (rs : list SectionRecord) :
  Forall (parses 1 7) (map record_dict rs).
Proof.
  apply Forall_forall. intros v Hv.
  apply list_elem_of_In, in_map_iff in Hv as (r & <- & _).
  apply parses_record.
Qed.

Lemma scan_once_records (fuel : nat) r (rs : list SectionRecord) :
  length rs + 9 <= fuel ->
  scan_once fuel (encode 0 (records_value (r :: rs)))
  = Some (records_value (r :: rs), "").
Proof.
  intros Hfuel. destruct fuel as [|fuel]; [lia |].
  unfold records_value. cbn [map]. rewrite encode_list, append_cons.
  pose proof (array_items_list 0 7 (map record_dict rs) (record_dict r)
                fuel "" (records_parse (r :: rs))) as Harr.
  rewrite length_map in Harr. specialize (Harr ltac:(lia)).
  destruct (join_head (separator 1) (encode 1 (record_dict r))
              (map (encode 1) (map record_dict rs))
              (newline_indent 0 ++ "]" ++ "")) as (t' & Ht').
  cbn [map] in Harr. rewrite Ht' in Harr.
  destruct (encode_record_head 1 r) as (t & Ht).
  apply (scan_once_array fuel _ "{" (t ++ t')).
  - rewrite append_nil_l, skip_ws_newline_indent. cbn [map].
    revert Ht'. norm_append. intros ->. now rewrite Ht.
  - reflexivity.
  - now rewrite Ht, append_cons in Harr.
Qed.

Lemma loads_dumps_records (rs : list SectionRecord) :
  loads (dumps (records_value rs)) = Ok (records_value rs).
Proof.
  destruct rs as [|r rs]; [reflexivity |].
  unfold loads, dumps.
  assert (length rs + 4 <= String.length (encode 0 (records_value (r :: rs))))
    as Hlen.
  { unfold records_value. cbn [map]. rewrite <- (length_map record_dict rs).
    apply encode_list_length, Forall_forall. intros v Hv.
    apply list_elem_of_In in Hv.
    change (In v (map record_dict (r :: rs))) in Hv.
    apply in_map_iff in Hv as (r' & <- & _).
    destruct (encode_record_head 1 r') as (t & ->).
    cbn [String.length]. lia. }
  replace (skip_ws (encode 0 (records_value (r :: rs))))
    with (encode 0 (records_value (r :: rs))) by reflexivity.
  rewrite scan_once_records by lia. reflexivity.
Qed.

End JsonFacts.

Lemma load_saved_corpus (rs : list SectionRecord) (path : string)
    (files : gmap string string) :
  load_slpc_data path (save_to_json (records_value rs) path files)
  = Ok (records_value rs).
Proof.
  unfold load_slpc_data, save_to_json. rewrite lookup_insert_eq.
  apply JsonFacts.loads_dumps_records.
Qed.

(** C8.  Writing a collection of section records with [save_to_json] and
    reading the file back with [load_slpc_data] gives the collection
    again: a list with one dictionary per record, in order, each with the
    keys chapter, chapter_title, Section, section_title and section_desc
    and the values of the record. *)
Theorem corpus_file_round_trip (rs : list SectionRecord) (path : string)
    (files : gmap string string) :
  load_slpc_data path (save_to_json (records_value rs) path files)
  = Ok (PyList
          (map (fun r =>
                  PyDict [("chapter", chapter_value (chapter r));
                          ("chapter_title", PyStr (chapter_title r));
                          ("Section", PyInt (Section_ r));
                          ("section_title", PyStr (section_title r));
                          ("section_desc", PyStr (section_desc r))])
               rs)).
Proof. apply load_saved_corpus. Qed.

(** ** Configuration *)

Section Configuration.
Context {V : VectorStore}.

(** The builder refuses to run, before it reads or writes anything, when
    one of its three variables is unset or empty. *)
Lemma build_requires_configuration (env : gmap string string) (w : world V) :
  forallb is_set [env !! "SLPC_JSON_PATH"; env !! "PERSIST_DIRECTORY_PATH";
                  env !! "SLPC_COLLECTION_NAME"] = false ->
  build_slpc_vectordb env w = (Raise EnvironmentError, w).
Proof.
  intros Hunset. unfold build_slpc_vectordb.
  destruct (env !! "SLPC_JSON_PATH") as [path|]; [| reflexivity].
  destruct (env !! "PERSIST_DIRECTORY_PATH") as [dir|]; [| reflexivity].
  destruct (env !! "SLPC_COLLECTION_NAME") as [name|]; [| reflexivity].
  now rewrite Hunset.
Qed.

(** The search tool refuses to run when the index location is unset or
    empty. *)
Lemma search_requires_location (env : gmap string string) query (w : world V) :
  is_set (env !! "PERSIST_DIRECTORY_PATH") = false ->
  search_slpc_sections env query w = (Raise EnvironmentError, w).
Proof.
  intros Hunset. unfold search_slpc_sections.
  destruct (env !! "PERSIST_DIRECTORY_PATH") as [dir|]; [| reflexivity].
  now rewrite Hunset.
Qed.

(** C6.  What the search tool does when the index location is set and the
    collection name is not: it raises no configuration error of its own,
    opens the store with no collection name, and returns what the store
    makes of it. *)
Theorem search_without_collection_name (query : string) (w : world V) :
  search_slpc_sections location_only_env query w
  = (match similarity_search (index w) None "chroma_db" query DEFAULT_TOP_K
     with
     | Ok docs => Ok (map hit_of docs)
     | Raise e => Raise e
     end,
     log (StoreOpen "chroma_db" None) w).
Proof.
  unfold search_slpc_sections, location_only_env.
  rewrite lookup_insert_eq, lookup_insert_ne, lookup_empty by discriminate.
  cbn [is_set truthy].
  now destruct (similarity_search _ _ _ _ _).
Qed.

End Configuration.

(** ** Rebuilding *)

Lemma hit_of_document_inj (r r' : SectionRecord) :
  hit_of (document_of r) = hit_of (document_of r') ->
  Section_ r = Section_ r'.
Proof. unfold hit_of, document_of. simpl. congruence. Qed.

(** A successful build leaves the index as [from_documents] made it from
    the documents of the corpus file. *)
Lemma build_from_corpus {V : VectorStore} (rs : list SectionRecord)
    (env : gmap string string) (path : string) (w w' : world V) :
  env !! "SLPC_JSON_PATH" = Some path ->
  build_slpc_vectordb env (write_corpus rs path w) = (Ok tt, w') ->
  exists dir name,
    env !! "PERSIST_DIRECTORY_PATH" = Some dir
    /\ is_set (Some dir) = true
    /\ env !! "SLPC_COLLECTION_NAME" = Some name
    /\ from_documents (map document_of rs) dir name (index w)
       = Ok (index w').
Proof.
  intros Hpath. unfold build_slpc_vectordb. rewrite Hpath.
  destruct (env !! "PERSIST_DIRECTORY_PATH") as [dir|]; [| discriminate].
  destruct (env !! "SLPC_COLLECTION_NAME") as [name|]; [| discriminate].
  destruct (forallb is_set _) eqn:Hset; [| discriminate].
  cbn [write_corpus files index].
  replace (load_slpc_data path (save_to_json (records_value rs) path (files w)))
    with (Ok (records_value rs) : result pyval)
    by (symmetry; apply load_saved_corpus).
  rewrite prepare_documents_records.
  destruct (from_documents _ _ _ _) as [s'|e] eqn:Hstore; [| discriminate].
  intros [= <-]. exists dir, name. cbn [index].
  split; [reflexivity |]. split; [| split; [reflexivity | exact Hstore]].
  cbn [forallb] in Hset.
  now destruct (is_set (Some path)), (is_set (Some dir)).
Qed.

Lemma adding_store_adds : adds adding_store.
Proof.
  intros docs dir name s s' [= <-]. cbn. unfold held at 1.
  now rewrite lookup_insert_eq.
Qed.

Lemma nearest_within (s : gmap (string * string) (list Document))
    name dir query k docs :
  nearest s (Some name) dir query k = Ok docs ->
  forall d, d ∈ docs -> d ∈ held s dir name.
Proof.
  intros [= <-] d Hd. apply list_elem_of_lookup in Hd as [i Hi].
  apply lookup_take_Some in Hi as [Hi _].
  apply list_elem_of_lookup. eauto.
Qed.

Lemma adding_store_search_within : search_within adding_store.
Proof. intros s name dir query k docs. apply nearest_within. Qed.

(** C5, as the code has it.  The builder hands the documents of the
    corpus file to [from_documents] and neither deletes nor resets a
    collection, and [from_documents] adds to the collection it finds.
    So after a build from [R1] and a build from [R2] under one
    configuration the collection holds what it held before, then the
    documents of [R1], then those of [R2]; when it was empty before, a
    search only returns hits made from records of [R1] or of [R2]. *)
Theorem rebuild_adds_when_store_adds (V : VectorStore)
    (R1 R2 : list SectionRecord) (env : gmap string string)
    (path dir name : string) (w w1 w2 w3 : world V) (query : string)
    (hits : list pyval) :
  adds V -> search_within V ->
  env !! "SLPC_JSON_PATH" = Some path ->
  env !! "PERSIST_DIRECTORY_PATH" = Some dir ->
  env !! "SLPC_COLLECTION_NAME" = Some name ->
  build_slpc_vectordb env (write_corpus R1 path w) = (Ok tt, w1) ->
  build_slpc_vectordb env (write_corpus R2 path w1) = (Ok tt, w2) ->
  search_slpc_sections env query w2 = (Ok hits, w3) ->
  collection (index w2) dir name
  = collection (index w) dir name
    ++ map document_of R1 ++ map document_of R2
  /\ (collection (index w) dir name = [] ->
      forall hit,
        hit ∈ hits ->
        exists r, r ∈ R1 ++ R2 /\ hit = hit_of (document_of r)).
Proof.
  intros Hadds Hwithin Hpath Hdir Hname Hbuild1 Hbuild2 Hsearch.
  destruct (build_from_corpus R1 env path w w1 Hpath Hbuild1)
    as (dir1 & name1 & Hdir1 & _ & Hname1 & Hstore1).
  destruct (build_from_corpus R2 env path w1 w2 Hpath Hbuild2)
    as (dir2 & name2 & Hdir2 & Hset & Hname2 & Hstore2).
  rewrite Hdir in Hdir1, Hdir2. rewrite Hname in Hname1, Hname2.
  injection Hdir1 as <-. injection Hdir2 as <-.
  injection Hname1 as <-. injection Hname2 as <-.
  apply Hadds in Hstore1, Hstore2.
  assert (collection (index w2) dir name
          = collection (index w) dir name
            ++ map document_of R1 ++ map document_of R2) as Hall.
  { cbn [write_corpus index] in Hstore1, Hstore2.
    now rewrite Hstore2, Hstore1, <- app_assoc. }
  split; [exact Hall |].
  intros Hempty hit Hhit.
  revert Hsearch. unfold search_slpc_sections. rewrite Hdir, Hset, Hname.
  destruct (similarity_search _ _ _ _ _) as [docs|e] eqn:Hdocs;
    [| discriminate].
  intros [= <- _].
  apply list_elem_of_fmap in Hhit as (d & -> & Hd).
  apply (Hwithin _ _ _ _ _ _ Hdocs) in Hd.
  rewrite Hall, Hempty, app_nil_l, <- map_app in Hd.
  apply list_elem_of_fmap in Hd as (r & -> & Hr). eauto.
Qed.

Lemma rebuild_adds_when_store_adds_witness :
  exists r,
    r ∈ [short_title] ++ [punishment]
    /\ hit_of (document_of short_title) = hit_of (document_of r).
Proof.
  set (w0 := empty_world adding_store ∅).
  set (b1 := build_slpc_vectordb full_env
               (write_corpus [short_title] "slpc.json" w0)).
  set (b2 := build_slpc_vectordb full_env
               (write_corpus [punishment] "slpc.json" (snd b1))).
  set (found := search_slpc_sections full_env "punishment for offenders"
                  (snd b2)).
  assert (fst b1 = Ok tt) as Hb1 by (vm_compute; reflexivity).
  assert (fst b2 = Ok tt) as Hb2 by (vm_compute; reflexivity).
  assert (fst found = Ok [hit_of (document_of short_title);
                          hit_of (document_of punishment)]) as Hfound
    by (vm_compute; reflexivity).
  apply (rebuild_adds_when_store_adds adding_store
           [short_title] [punishment] full_env "slpc.json" "chroma_db" "slpc"
           w0 (snd b1) (snd b2) (snd found) "punishment for offenders"
           [hit_of (document_of short_title);
            hit_of (document_of punishment)]
           adding_store_adds adding_store_search_within
           eq_refl eq_refl eq_refl).
  - rewrite <- Hb1. apply surjective_pairing.
  - rewrite <- Hb2. apply surjective_pairing.
  - rewrite <- Hfound. apply surjective_pairing.
  - reflexivity.
  - apply list_elem_of_here.
Defined.

(** C5, as stated, fails for a store that adds the documents of a build
    to the collection it finds: after a build from the first record of the
    scenario and a build from the second, a search returns both. *)
Lemma rebuild_with_adding_store_merges : ~ rebuild_replaces adding_store.
Proof.
  intros Hclaim.
  set (w0 := empty_world adding_store ∅).
  set (b1 := build_slpc_vectordb full_env
               (write_corpus [short_title] "slpc.json" w0)).
  set (b2 := build_slpc_vectordb full_env
               (write_corpus [punishment] "slpc.json" (snd b1))).
  set (found := search_slpc_sections full_env "punishment for offenders"
                  (snd b2)).
  assert (fst b1 = Ok tt) as Hb1 by (vm_compute; reflexivity).
  assert (fst b2 = Ok tt) as Hb2 by (vm_compute; reflexivity).
  assert (fst found = Ok [hit_of (document_of short_title);
                          hit_of (document_of punishment)]) as Hfound
    by (vm_compute; reflexivity).
  destruct (Hclaim [short_title] [punishment] full_env "slpc.json"
              w0 (snd b1) (snd b2) (snd found) "punishment for offenders"
              [hit_of (document_of short_title);
               hit_of (document_of punishment)]
              eq_refl) with (hit := hit_of (document_of short_title))
    as (r & Hr & Heq).
  - rewrite <- Hb1. apply surjective_pairing.
  - rewrite <- Hb2. apply surjective_pairing.
  - rewrite <- Hfound. apply surjective_pairing.
  - apply list_elem_of_here.
  - apply list_elem_of_singleton in Hr as ->.
    apply hit_of_document_inj in Heq. discriminate Heq.
Qed.

(** * Further properties of the corpus structurer *)

(** ** The matcher and the form of a match *)

Lemma all_match_app (a : atom) (p q : string) :
  all_match a (p ++ q)%string = all_match a p && all_match a q.
Proof.
  induction p as [|x p IH]; [reflexivity |].
  rewrite append_cons. cbn [all_match]. now rewrite IH, andb_assoc.
Qed.

(** A repetition that succeeds has consumed a run of matching characters,
    at least [min] of them, and the rest of the pattern has succeeded on
    what follows. *)
Lemma rep_sound {A} (a : atom) (s : string) :
  forall (min : nat) (k : string -> option A) (res : A),
    rep true a min s k = Some res ->
    exists p s',
      s = (p ++ s')%string /\ all_match a p = true
      /\ min <= String.length p /\ k s' = Some res.
Proof.
  induction s as [|x s IH]; intros min k res; cbn [rep].
  - destruct (Nat.eqb_spec min 0) as [-> |]; [| discriminate].
    intros Hk. exists "", "". auto.
  - destruct (atom_matches true a x) eqn:Hx.
    + destruct (rep true a (Nat.pred min) s k) as [res'|] eqn:Hrec.
      * intros [= ->]. apply IH in Hrec as (p & s' & -> & Hp & Hmin & Hk).
        exists (String x p), s'. rewrite append_cons. cbn [all_match].
        rewrite Hx, Hp. cbn [String.length]. repeat split; auto. lia.
      * destruct (Nat.eqb_spec min 0) as [-> |]; [| discriminate].
        intros Hk. exists "", (String x s). auto.
    + destruct (Nat.eqb_spec min 0) as [-> |]; [| discriminate].
      intros Hk. exists "", (String x s). auto.
Qed.

(** A run of matching characters of sufficient length, followed by a text
    on which the rest of the pattern succeeds, is never refused. *)
Lemma rep_complete {A} (a : atom) (p : string) :
  forall (min : nat) (s' : string) (k : string -> option A),
    all_match a p = true -> min <= String.length p ->
    k s' <> None ->
    rep true a min (p ++ s')%string k <> None.
Proof.
  induction p as [|x p IH]; intros min s' k Hp Hmin Hk.
  - rewrite append_nil_l. cbn in Hmin. assert (min = 0) as -> by lia.
    destruct s' as [|y s']; cbn [rep Nat.eqb]; [exact Hk |].
    destruct (atom_matches true a y); [| exact Hk].
    now destruct (rep true a (Nat.pred 0) s' k).
  - cbn [all_match] in Hp. apply andb_prop in Hp as [Hx Hp].
    rewrite append_cons. cbn [rep]. rewrite Hx.
    cbn [String.length] in Hmin.
    specialize (IH (Nat.pred min) s' k Hp ltac:(lia) Hk).
    now destruct (rep true a (Nat.pred min) (p ++ s')%string k).
Qed.

Lemma substring_prefix_app (p s' : string) :
  substring 0 (String.length (p ++ s') - String.length s') (p ++ s')%string
  = p.
Proof. apply substring_prefix. Qed.

(** The matcher is sound: a successful run has read a prefix of the form
    the pattern describes, and the continuation has succeeded on the rest
    with the groups of that prefix. *)
Lemma run_sound (r : re) :
  forall (s : string) (g : caps) (k : string -> caps -> option caps) res,
    run true r s g k = Some res ->
    exists p s' g',
      s = (p ++ s')%string /\ matches r p g g' /\ k s' g' = Some res.
Proof.
  induction r as [|a|min a|r1 IH1 r2 IH2|r1 IH1 r2 IH2|n r IH];
    intros s g k res; cbn [run].
  - intros Hk. exists "", s, g. repeat split; auto. constructor.
  - destruct s as [|x s]; [discriminate |].
    destruct (atom_matches true a x) eqn:Hx; [| discriminate].
    intros Hk. exists (String x ""), s, g. repeat split; auto.
    now constructor.
  - intros Hrep. apply rep_sound in Hrep as (p & s' & -> & Hp & Hmin & Hk).
    exists p, s', g. repeat split; auto. now constructor.
  - intros Hrun. apply IH1 in Hrun as (p1 & s1 & g1 & -> & Hm1 & Hrun).
    apply IH2 in Hrun as (p2 & s2 & g2 & -> & Hm2 & Hk).
    exists (p1 ++ p2)%string, s2, g2. rewrite append_assoc.
    repeat split; auto. econstructor; eauto.
  - destruct (run true r1 s g k) as [res'|] eqn:Hleft.
    + intros [= ->]. apply IH1 in Hleft as (p & s' & g' & -> & Hm & Hk).
      exists p, s', g'. repeat split; auto. now apply matches_alt_l.
    + intros Hright. apply IH2 in Hright as (p & s' & g' & -> & Hm & Hk).
      exists p, s', g'. repeat split; auto. now apply matches_alt_r.
  - intros Hrun. apply IH in Hrun as (p & s' & g' & -> & Hm & Hk).
    rewrite substring_prefix_app in Hk.
    exists p, s', ((n, p) :: g'). repeat split; auto. now constructor.
Qed.

(** The matcher is complete for recognition: a text that starts with a
    prefix of the form the pattern describes, on whose rest the
    continuation succeeds, is not refused. *)
Lemma run_complete (r : re) (p : string) (g g' : caps) :
  matches r p g g' ->
  forall (s' : string) (k : string -> caps -> option caps),
    k s' g' <> None ->
    run true r (p ++ s')%string g k <> None.
Proof.
  induction 1 as [g|a x g Hx|min a p g Hp Hmin
                  |r1 r2 p1 p2 g g1 g2 _ IH1 _ IH2
                  |r1 r2 p g g' _ IH|r1 r2 p g g' _ IH|n r p g g' _ IH];
    intros s' k Hk; cbn [run].
  - exact Hk.
  - rewrite append_cons, append_nil_l. now rewrite Hx.
  - now apply rep_complete.
  - rewrite append_assoc. apply IH1. now apply IH2.
  - specialize (IH s' k Hk). now destruct (run true r1 (p ++ s')%string g k).
  - destruct (run true r1 (p ++ s')%string g k); [discriminate |].
    now apply IH.
  - apply IH. now rewrite substring_prefix_app.
Qed.

(** When all that is left matches, a repetition followed by nothing that
    can fail takes all of it. *)
Lemma rep_takes_all {A} (a : atom) (s : string) :
  forall (min : nat) (f : string -> A),
    all_match a s = true ->
    rep true a min s (fun s' => Some (f s'))
    = if Nat.leb min (String.length s) then Some (f EmptyString) else None.
Proof.
  induction s as [|x s IH]; intros min f Hs; cbn [rep String.length].
  - now destruct min.
  - cbn [all_match] in Hs. apply andb_prop in Hs as [Hx Hs].
    rewrite Hx, IH by exact Hs.
    destruct min as [|min]; cbn [Nat.pred Nat.leb Nat.eqb]; [reflexivity |].
    now destruct (Nat.leb min (String.length s)).
Qed.

Lemma no_newline_app (p q : string) :
  no_newline (p ++ q)%string = no_newline p && no_newline q.
Proof.
  induction p as [|x p IH]; [reflexivity |].
  rewrite append_cons. cbn [no_newline]. now rewrite IH, andb_assoc.
Qed.

Lemma no_newline_all_match (s : string) :
  no_newline s = true -> all_match not_newline s = true.
Proof.
  induction s as [|x s IH]; [reflexivity |]. cbn [no_newline all_match].
  intros [Hx Hs]%andb_prop. rewrite (IH Hs), andb_true_r.
  unfold not_newline, atom_matches, item_matches, char_eq.
  cbn [existsb xorb orb].
  destruct (Ascii.eqb_spec x nl_char) as [-> | Hne]; [discriminate |].
  rewrite orb_false_r.
  destruct (Ascii.eqb_spec (lower nl_char) (lower x)) as [Heq | _];
    [| reflexivity].
  exfalso. apply Hne. clear -Heq.
  destruct x as [[|] [|] [|] [|] [|] [|] [|] [|]]; try discriminate Heq;
    reflexivity.
Qed.

(** The title group at the end of a pattern takes the rest of a line. *)
Lemma title_group_rest (s : string) (g res : caps) :
  no_newline s = true ->
  run true title_group s g (fun _ g' => Some g') = Some res ->
  s <> EmptyString /\ res = (2, s) :: g.
Proof.
  intros Hs. unfold title_group.
  change (run true (RGroup 2 (RRep 1 not_newline)) s g (fun _ g' => Some g'))
    with (rep true not_newline 1 s
            (fun s' =>
               Some ((2, substring 0 (String.length s - String.length s') s)
                     :: g))).
  rewrite (rep_takes_all not_newline s 1
             (fun s' => (2, substring 0 (String.length s - String.length s') s)
                        :: g))
    by now apply no_newline_all_match.
  destruct s as [|x s]; [discriminate |]. intros [= <-].
  split; [discriminate |].
  pose proof (substring_prefix (String x s) "") as Hsub.
  rewrite append_nil_r in Hsub. cbn in Hsub. now rewrite Hsub.
Qed.

Lemma matches_lit_same_word (w p : string) (g g' : caps) :
  matches (lit w) p g g' -> same_word w p = true /\ g' = g.
Proof.
  revert p g g'. induction w as [|a w IH]; intros p g g' Hm; cbn [lit] in Hm.
  - inversion Hm; subst. auto.
  - inversion Hm as [| | |r1 r2 p1 p2 g0 g1 g2 Ha Hw| | |]; subst.
    inversion Ha as [|a0 x g0 Hx| | | | |]; subst.
    apply IH in Hw as [Hw ->]. rewrite append_cons, append_nil_l.
    cbn [same_word]. now rewrite Hw, andb_true_r.
Qed.

Lemma same_word_matches_lit (w p : string) (g : caps) :
  same_word w p = true -> matches (lit w) p g g.
Proof.
  revert p. induction w as [|a w IH]; intros [|b p]; cbn [same_word lit];
    try discriminate.
  - intros _. constructor.
  - intros [Hab Hw]%andb_prop.
    change (String b p) with (String b "" ++ p)%string.
    econstructor; [now constructor | now apply IH].
Qed.

Lemma same_word_upper (p : string) :
  same_word "Chapter" p = same_word "CHAPTER" p.
Proof.
  do 7 (destruct p as [|? p]; [reflexivity |]). reflexivity.
Qed.

Lemma same_word_section (p : string) :
  same_word "Section" p = same_word "SECTION" p.
Proof.
  do 7 (destruct p as [|? p]; [reflexivity |]). reflexivity.
Qed.

(** ** The form of a heading *)

Ltac invert H := inversion H; subst; clear H.

Lemma length_nonempty (p : string) :
  1 <= String.length p -> p <> EmptyString.
Proof. destruct p; cbn; [lia | discriminate]. Qed.

Lemma chapter_pattern_split (s : string) (g : caps) k :
  run true chapter_pattern s g k
  = run true chapter_head s g (fun s' g' => run true title_group s' g' k).
Proof. reflexivity. Qed.

Lemma section_pattern_split (s : string) (g : caps) k :
  run true section_pattern s g k
  = run true section_head s g (fun s' g' => run true title_group s' g' k).
Proof. reflexivity. Qed.

Lemma matches_chapter_label (p : string) (g g' : caps) :
  matches (RAlt (lit "CHAPTER") (lit "Chapter")) p g g' ->
  chapter_label p = true /\ g' = g.
Proof.
  remember (lit "CHAPTER") as upper eqn:Hupper.
  remember (lit "Chapter") as mixed eqn:Hmixed.
  intros H. unfold chapter_label. invert H.
  - now apply matches_lit_same_word in H5.
  - apply matches_lit_same_word in H5 as [Hw ->].
    now rewrite same_word_upper in Hw.
Qed.

Lemma matches_section_label (p : string) (g g' : caps) :
  matches (RAlt (lit "Section") (RAtom (ALit section_sign))) p g g' ->
  section_label p = true /\ g' = g.
Proof.
  remember (lit "Section") as word eqn:Hword.
  intros H. unfold section_label. invert H.
  - apply matches_lit_same_word in H5 as [Hw ->].
    rewrite same_word_section in Hw. now rewrite Hw.
  - invert H5. split; [| reflexivity]. apply orb_true_iff. right.
    apply String.eqb_eq. f_equal.
    match goal with
    | Hx : atom_matches true _ ?x = true |- _ =>
        clear -Hx; destruct x as [[|] [|] [|] [|] [|] [|] [|] [|]];
        try discriminate Hx; reflexivity
    end.
Qed.

Ltac invert_matches :=
  repeat match goal with
  | H : matches (RAlt (RCat _ _) _) _ _ _ |- _ =>
      first [ apply matches_chapter_label in H as [? ->]
            | apply matches_section_label in H as [? ->] ]
  | H : matches (RCat _ _) _ _ _ |- _ => invert H
  | H : matches (RGroup _ _) _ _ _ |- _ => invert H
  | H : matches (RRep _ _) _ _ _ |- _ => invert H
  | H : matches (RAlt _ _) _ _ _ |- _ => invert H
  end.

Lemma matches_chapter_head (p : string) (g' : caps) :
  matches chapter_head p [] g' ->
  exists lab ws num sep,
    p = (lab ++ ws ++ num ++ sep)%string
    /\ chapter_label lab = true
    /\ blanks ws = true /\ ws <> EmptyString
    /\ (roman num = true \/ digits num = true) /\ num <> EmptyString
    /\ chapter_separators sep = true
    /\ g' = [(1, num)].
Proof.
  unfold chapter_head. intros H. invert_matches.
  all: do 4 eexists; split; [reflexivity |].
  all: repeat split; eauto using length_nonempty.
Qed.

Lemma matches_section_head (p : string) (g' : caps) :
  matches section_head p [] g' ->
  exists lab ws num sep,
    p = (lab ++ ws ++ num ++ sep)%string
    /\ section_label lab = true
    /\ blanks ws = true
    /\ digits num = true /\ num <> EmptyString
    /\ section_separators sep = true
    /\ g' = [(1, num)].
Proof.
  unfold section_head. intros H. invert_matches.
  all: do 4 eexists; split; [reflexivity |].
  all: repeat split; eauto using length_nonempty.
Qed.

Lemma re_match_head_sound (head : re) (line : string) (res : caps) :
  no_newline line = true ->
  run true head line []
    (fun s' g' => run true title_group s' g' (fun _ g => Some g)) = Some res ->
  exists p title g',
    line = (p ++ title)%string /\ matches head p [] g'
    /\ title <> EmptyString /\ res = (2, title) :: g'.
Proof.
  intros Hline Hrun.
  apply run_sound in Hrun as (p & s' & g' & -> & Hm & Htitle).
  rewrite no_newline_app in Hline. apply andb_prop in Hline as [_ Hs'].
  apply title_group_rest in Htitle as [Hne ->]; [| exact Hs'].
  exists p, s', g'. auto.
Qed.

(** The groups of a chapter heading.  When a line (without line
    break) matches the chapter pattern, the line is made of the chapter
    label in any case, at least one blank, the first group, separators
    (colons and blanks) and the second group, with nothing left over; the
    first group is a non-empty run of roman numeral letters or of digits
    and the second group is not empty. *)
Lemma chapter_match_groups (line g1 g2 : string) :
  no_newline line = true ->
  chapter_match line = Some (g1, g2) ->
  exists lab ws sep,
    line = (lab ++ ws ++ g1 ++ sep ++ g2)%string
    /\ chapter_label lab = true
    /\ blanks ws = true /\ ws <> EmptyString
    /\ (roman g1 = true \/ digits g1 = true) /\ g1 <> EmptyString
    /\ chapter_separators sep = true
    /\ g2 <> EmptyString.
Proof.
  intros Hline. unfold chapter_match, re_match.
  rewrite chapter_pattern_split.
  destruct (run true chapter_head line [] _) as [res|] eqn:Hrun;
    [| discriminate].
  apply re_match_head_sound in Hrun
    as (p & title & g' & -> & Hm & Hne & ->); [| exact Hline].
  apply matches_chapter_head in Hm
    as (lab & ws & num & sep & -> & Hlab & Hws & Hwne & Hnum & Hnne & Hsep
        & ->).
  cbn. intros [= <- <-]. exists lab, ws, sep.
  rewrite !append_assoc. repeat split; auto.
Qed.


(** The groups of a section heading.  When a line (without line
    break) matches the section pattern, the line is made of the section
    label (the word in any case, or the sign), blanks if any, the first
    group, separators (colons, points and blanks) and the second group,
    with nothing left over; the first group is a non-empty run of digits
    and the second group is not empty. *)
Lemma section_match_groups (line g1 g2 : string) :
  no_newline line = true ->
  section_match line = Some (g1, g2) ->
  exists lab ws sep,
    line = (lab ++ ws ++ g1 ++ sep ++ g2)%string
    /\ section_label lab = true
    /\ blanks ws = true
    /\ digits g1 = true /\ g1 <> EmptyString
    /\ section_separators sep = true
    /\ g2 <> EmptyString.
Proof.
  intros Hline. unfold section_match, re_match.
  rewrite section_pattern_split.
  destruct (run true section_head line [] _) as [res|] eqn:Hrun;
    [| discriminate].
  apply re_match_head_sound in Hrun
    as (p & title & g' & -> & Hm & Hne & ->); [| exact Hline].
  apply matches_section_head in Hm
    as (lab & ws & num & sep & -> & Hlab & Hws & Hnum & Hnne & Hsep & ->).
  cbn. intros [= <- <-]. exists lab, ws, sep.
  rewrite !append_assoc. repeat split; auto.
Qed.


Lemma matches_chapter_label_intro (lab : string) (g : caps) :
  chapter_label lab = true ->
  matches (RAlt (lit "CHAPTER") (lit "Chapter")) lab g g.
Proof. intros Hlab. now apply matches_alt_l, same_word_matches_lit. Qed.

Lemma matches_section_label_intro (lab : string) (g : caps) :
  section_label lab = true ->
  matches (RAlt (lit "Section") (RAtom (ALit section_sign))) lab g g.
Proof.
  unfold section_label. intros [Hw | Hs]%orb_prop.
  - apply matches_alt_l, same_word_matches_lit.
    now rewrite same_word_section.
  - apply String.eqb_eq in Hs as ->. apply matches_alt_r.
    now constructor.
Qed.

Lemma nonempty_length (p : string) :
  p <> EmptyString -> 1 <= String.length p.
Proof. destruct p; cbn; [congruence | lia]. Qed.

(** A title of one character is enough for a line to match. *)
Lemma run_title_first (head : re) (p : string) (g' : caps) c (rest : string) :
  matches head p [] g' ->
  Ascii.eqb c nl_char = false ->
  run true head (p ++ String c rest)%string []
    (fun s' g' => run true title_group s' g' (fun _ g => Some g)) <> None.
Proof.
  intros Hm Hc. apply (run_complete head p [] g' Hm).
  change (String c rest) with (String c "" ++ rest)%string.
  apply (run_complete title_group (String c "") g' ((2, String c "") :: g'));
    [| discriminate].
  constructor. constructor; [| cbn; lia].
  apply no_newline_all_match. cbn [no_newline]. now rewrite Hc.
Qed.

Lemma chapter_match_recognises (lab ws num rest : string) :
  chapter_label lab = true ->
  blanks ws = true -> ws <> EmptyString ->
  roman num = true \/ digits num = true -> num <> EmptyString ->
  rest <> EmptyString -> no_newline rest = true ->
  chapter_match (lab ++ ws ++ num ++ rest)%string <> None.
Proof.
  intros Hlab Hws Hwne Hnum Hnne Hrest Hnl.
  destruct rest as [|c rest]; [congruence |].
  cbn [no_newline] in Hnl. apply andb_prop in Hnl as [Hc _].
  apply negb_true_iff in Hc.
  assert (matches chapter_head (lab ++ ws ++ num ++ "")%string [] [(1, num)])
    as Hm.
  { unfold chapter_head.
    apply matches_cat with (g1 := []);
      [now apply matches_chapter_label_intro |].
    apply matches_cat with (g1 := []);
      [constructor; auto using nonempty_length |].
    apply matches_cat with (g1 := [(1, num)]).
    - constructor. destruct Hnum; [apply matches_alt_l | apply matches_alt_r];
        constructor; auto using nonempty_length.
    - constructor; [reflexivity | cbn; lia]. }
  pose proof (run_title_first _ _ _ c rest Hm Hc) as Hrun.
  rewrite !append_assoc, append_nil_l in Hrun.
  unfold chapter_match, re_match. rewrite chapter_pattern_split.
  now destruct (run true chapter_head _ _ _).
Qed.

Lemma section_match_recognises (lab ws num rest : string) :
  section_label lab = true ->
  blanks ws = true ->
  digits num = true -> num <> EmptyString ->
  rest <> EmptyString -> no_newline rest = true ->
  section_match (lab ++ ws ++ num ++ rest)%string <> None.
Proof.
  intros Hlab Hws Hnum Hnne Hrest Hnl.
  destruct rest as [|c rest]; [congruence |].
  cbn [no_newline] in Hnl. apply andb_prop in Hnl as [Hc _].
  apply negb_true_iff in Hc.
  assert (matches section_head (lab ++ ws ++ num ++ "")%string [] [(1, num)])
    as Hm.
  { unfold section_head.
    apply matches_cat with (g1 := []);
      [now apply matches_section_label_intro |].
    apply matches_cat with (g1 := []); [constructor; [auto | lia] |].
    apply matches_cat with (g1 := [(1, num)]).
    - constructor. constructor; auto using nonempty_length.
    - constructor; [reflexivity | cbn; lia]. }
  pose proof (run_title_first _ _ _ c rest Hm Hc) as Hrun.
  rewrite !append_assoc, append_nil_l in Hrun.
  unfold section_match, re_match. rewrite section_pattern_split.
  now destruct (run true section_head _ _ _).
Qed.

(** Which lines are chapter headings.  A line without line break
    matches the chapter pattern exactly when it starts with the chapter
    label in any case, at least one blank and a non-empty run of roman
    numeral letters or of digits, and at least one more character
    follows. *)
Lemma chapter_heading_shape (line : string) :
  no_newline line = true ->
  chapter_match line <> None
  <-> exists lab ws num rest,
        line = (lab ++ ws ++ num ++ rest)%string
        /\ chapter_label lab = true
        /\ blanks ws = true /\ ws <> EmptyString
        /\ (roman num = true \/ digits num = true) /\ num <> EmptyString
        /\ rest <> EmptyString.
Proof.
  intros Hline. split.
  - destruct (chapter_match line) as [[g1 g2]|] eqn:Hm; [| congruence].
    intros _.
    destruct (chapter_match_groups line g1 g2 Hline Hm)
      as (lab & ws & sep & -> & Hlab & Hws & Hwne & Hnum & Hnne & _ & Hg2).
    exists lab, ws, g1, (sep ++ g2)%string. repeat split; auto.
    destruct sep; [now rewrite append_nil_l | discriminate].
  - intros (lab & ws & num & rest & -> & Hlab & Hws & Hwne & Hnum & Hnne
            & Hrest).
    apply chapter_match_recognises; auto.
    rewrite !no_newline_app in Hline.
    now repeat (apply andb_prop in Hline as [_ Hline]).
Qed.


(** Which lines are section headings.  A line without line break
    matches the section pattern exactly when it starts with the section
    label (the word in any case, or the sign), blanks if any and a
    non-empty run of digits, and at least one more character follows. *)
Lemma section_heading_shape (line : string) :
  no_newline line = true ->
  section_match line <> None
  <-> exists lab ws num rest,
        line = (lab ++ ws ++ num ++ rest)%string
        /\ section_label lab = true
        /\ blanks ws = true
        /\ digits num = true /\ num <> EmptyString
        /\ rest <> EmptyString.
Proof.
  intros Hline. split.
  - destruct (section_match line) as [[g1 g2]|] eqn:Hm; [| congruence].
    intros _.
    destruct (section_match_groups line g1 g2 Hline Hm)
      as (lab & ws & sep & -> & Hlab & Hws & Hnum & Hnne & _ & Hg2).
    exists lab, ws, g1, (sep ++ g2)%string. repeat split; auto.
    destruct sep; [now rewrite append_nil_l | discriminate].
  - intros (lab & ws & num & rest & -> & Hlab & Hws & Hnum & Hnne & Hrest).
    apply section_match_recognises; auto.
    rewrite !no_newline_app in Hline.
    now repeat (apply andb_prop in Hline as [_ Hline]).
Qed.


(** ** The two kinds of heading exclude each other *)

Lemma chapter_match_label (line : string) :
  chapter_match line <> None ->
  exists lab rest,
    line = (lab ++ rest)%string /\ chapter_label lab = true.
Proof.
  unfold chapter_match, re_match. rewrite chapter_pattern_split.
  destruct (run true chapter_head line [] _) as [res|] eqn:Hrun;
    [| congruence].
  intros _. apply run_sound in Hrun as (p & s' & g' & -> & Hm & _).
  apply matches_chapter_head in Hm as (lab & ws & num & sep & -> & Hlab & _).
  exists lab, ((ws ++ num ++ sep) ++ s')%string.
  now rewrite <- !append_assoc.
Qed.

Lemma section_match_label (line : string) :
  section_match line <> None ->
  exists lab rest,
    line = (lab ++ rest)%string /\ section_label lab = true.
Proof.
  unfold section_match, re_match. rewrite section_pattern_split.
  destruct (run true section_head line [] _) as [res|] eqn:Hrun;
    [| congruence].
  intros _. apply run_sound in Hrun as (p & s' & g' & -> & Hm & _).
  apply matches_section_head in Hm as (lab & ws & num & sep & -> & Hlab & _).
  exists lab, ((ws ++ num ++ sep) ++ s')%string.
  now rewrite <- !append_assoc.
Qed.

Lemma chapter_label_first (lab : string) :
  chapter_label lab = true ->
  exists c t, lab = String c t /\ lower c = "c"%char.
Proof.
  unfold chapter_label. destruct lab as [|c t]; [discriminate |].
  cbn [same_word]. intros [Hc _]%andb_prop.
  exists c, t. split; [reflexivity |].
  apply Ascii.eqb_eq in Hc. now rewrite <- Hc.
Qed.

Lemma section_label_first (lab : string) :
  section_label lab = true ->
  exists c t, lab = String c t /\ lower c <> "c"%char.
Proof.
  unfold section_label. intros [Hw|Hs]%orb_true_iff.
  - destruct lab as [|c t]; [discriminate |].
    cbn [same_word] in Hw. apply andb_prop in Hw as [Hc _].
    exists c, t. split; [reflexivity |].
    apply Ascii.eqb_eq in Hc. rewrite <- Hc. discriminate.
  - apply String.eqb_eq in Hs. subst lab.
    exists section_sign, "". split; [reflexivity |]. discriminate.
Qed.

Lemma heading_kinds_disjoint (line : string) :
  chapter_match line <> None -> section_match line = None.
Proof.
  intros Hc. destruct (section_match line) as [gs|] eqn:Hs; [| reflexivity].
  exfalso.
  apply chapter_match_label in Hc as (lab & rest & Hline & Hlab).
  assert (section_match line <> None) as Hs' by congruence.
  apply section_match_label in Hs' as (lab' & rest' & Hline' & Hlab').
  apply chapter_label_first in Hlab as (c & t & -> & Hc).
  apply section_label_first in Hlab' as (c' & t' & -> & Hc').
  rewrite Hline' in Hline. rewrite !append_cons in Hline.
  injection Hline as -> _. contradiction.
Qed.

(** ** More on [strip] and [split] *)

Lemma rstrip_suffix (p q : string) :
  rstrip (p ++ q)%string = (p ++ q)%string -> rstrip q = q.
Proof.
  induction p as [|c p IH]; [now rewrite append_nil_l |].
  rewrite append_cons. cbn [rstrip]. intros H. apply IH.
  destruct (rstrip (p ++ q)%string) as [|d t] eqn:Hr.
  - destruct (is_space c); [discriminate |]. now injection H as <-.
  - now injection H.
Qed.

Lemma rstrip_idem (s : string) : rstrip (rstrip s) = rstrip s.
Proof.
  induction s as [|c s IH]; [reflexivity |]. cbn [rstrip].
  destruct (rstrip s) as [|d t] eqn:Hr.
  - destruct (is_space c) eqn:Hc; [reflexivity |].
    cbn [rstrip]. now rewrite Hc.
  - cbn [rstrip] in IH |- *. cbn [rstrip]. rewrite IH. reflexivity.
Qed.

Lemma lstrip_nonspace c (t : string) :
  is_space c = false -> lstrip (String c t) = String c t.
Proof. intros Hc. cbn [lstrip]. now rewrite Hc. Qed.

Lemma strip_idem (s : string) : strip (strip s) = strip s.
Proof.
  destruct (strip s) as [|c t] eqn:Hs; [reflexivity |].
  pose proof (strip_head _ _ _ Hs) as Hc.
  unfold strip at 1. rewrite (lstrip_nonspace _ _ Hc), <- Hs.
  unfold strip. apply rstrip_idem.
Qed.

Lemma strip_stripped (s : string) : stripped (strip s).
Proof. apply strip_idem. Qed.

Lemma stripped_rstrip (s : string) : stripped s -> rstrip s = s.
Proof.
  unfold stripped. intros Hs. rewrite <- Hs at 1.
  unfold strip. now rewrite rstrip_idem.
Qed.

(** [lstrip] removes a run of white space from the front. *)
Lemma lstrip_app (s : string) :
  exists p, s = (p ++ lstrip s)%string /\ rstrip p = EmptyString.
Proof.
  induction s as [|c s (p & Hs & Hp)]; [now exists "" |].
  cbn [lstrip]. destruct (is_space c) eqn:Hc.
  - exists (String c p). rewrite append_cons, <- Hs. split; [reflexivity |].
    cbn [rstrip]. now rewrite Hp, Hc.
  - now exists "".
Qed.

Lemma rstrip_app (a b : string) :
  rstrip (a ++ b)%string
  = match rstrip b with
    | EmptyString => rstrip a
    | _ => (a ++ rstrip b)%string
    end.
Proof.
  induction a as [|c a IH].
  - rewrite !append_nil_l. now destruct (rstrip b).
  - rewrite append_cons. cbn [rstrip]. rewrite IH.
    destruct (rstrip b) as [|d t]; [reflexivity |].
    rewrite append_cons.
    now destruct (a ++ String d t)%string eqn:E;
      [destruct a; discriminate E |].
Qed.

(** A non-empty end of a stripped text does not strip to nothing. *)
Lemma strip_suffix_nonempty (p q : string) :
  stripped (p ++ q)%string -> q <> EmptyString -> strip q <> EmptyString.
Proof.
  intros Hs Hq. apply stripped_rstrip, rstrip_suffix in Hs.
  destruct (lstrip_app q) as (sp & Hsplit & Hsp).
  unfold strip. destruct (lstrip q) as [|c t] eqn:Hl.
  - rewrite append_nil_r in Hsplit. subst sp. rewrite Hs in Hsp. congruence.
  - rewrite Hsplit in Hs. apply rstrip_suffix in Hs. rewrite Hs. discriminate.
Qed.

Lemma no_newline_lstrip (s : string) :
  no_newline s = true -> no_newline (lstrip s) = true.
Proof.
  induction s as [|c s IH]; [reflexivity |]. cbn [lstrip].
  destruct (is_space c); [| trivial].
  cbn [no_newline]. intros [_ Hs]%andb_prop. auto.
Qed.

Lemma no_newline_rstrip (s : string) :
  no_newline s = true -> no_newline (rstrip s) = true.
Proof.
  induction s as [|c s IH]; [reflexivity |]. cbn [no_newline rstrip].
  intros [Hc Hs]%andb_prop. specialize (IH Hs).
  destruct (rstrip s) as [|d t].
  - destruct (is_space c); [reflexivity |]. cbn [no_newline].
    now rewrite Hc.
  - cbn [no_newline] in *. now rewrite Hc, IH.
Qed.

Lemma no_newline_strip (s : string) :
  no_newline s = true -> no_newline (strip s) = true.
Proof. intros Hs. now apply no_newline_rstrip, no_newline_lstrip. Qed.

(** The pieces of [split] hold no line break. *)
Lemma split_nl_no_newline (text : string) :
  Forall (fun line => no_newline line = true) (split_nl text).
Proof.
  induction text as [|c text IH]; cbn [split_nl].
  - repeat constructor.
  - destruct (Ascii.eqb c nl_char) eqn:Hc; [now constructor |].
    destruct (split_nl text) as [|l ls]; [repeat constructor |].
    + cbn. now rewrite Hc.
    + inversion IH; subst. constructor; [| assumption].
      cbn [no_newline]. rewrite Hc. assumption.
Qed.

Lemma split_nl_nonempty (text : string) : split_nl text <> [].
Proof.
  destruct text as [|c text]; cbn [split_nl]; [discriminate |].
  destruct (Ascii.eqb c nl_char); [discriminate |].
  destruct (split_nl text); discriminate.
Qed.

(** Splitting at the line breaks commutes with joining two texts by a
    line break. *)
Lemma split_nl_app (a b : string) :
  split_nl (a ++ nl ++ b)%string = split_nl a ++ split_nl b.
Proof.
  induction a as [|c a IH].
  - rewrite append_nil_l. reflexivity.
  - rewrite append_cons. cbn [split_nl]. rewrite IH.
    destruct (Ascii.eqb c nl_char); [reflexivity |].
    pose proof (split_nl_nonempty a) as Hne.
    now destruct (split_nl a).
Qed.

(** ** Fields of the records *)

Lemma int_acc_nonneg (s : string) (acc : Z) :
  digits s = true -> (0 <= acc)%Z -> (0 <= int_acc acc s)%Z.
Proof.
  revert acc. induction s as [|c s IH]; intros acc Hs Hacc; [exact Hacc |].
  unfold digits in Hs. cbn [all_match] in Hs.
  apply andb_prop in Hs as [Hc Hs]. cbn [int_acc]. apply IH; [exact Hs |].
  assert (0 <= digit_val c)%Z; [| lia].
  cbn in Hc. rewrite orb_false_r in Hc. unfold is_digit in Hc.
  unfold digit_val. apply andb_prop in Hc as [Hlo _].
  apply N.leb_le in Hlo. lia.
Qed.

Lemma int_of_digits_nonneg (s : string) :
  digits s = true -> (0 <= int_of_digits s)%Z.
Proof. intros Hs. now apply int_acc_nonneg. Qed.

Lemma heading_title_nonempty (raw p g2 : string) :
  strip raw = (p ++ g2)%string -> g2 <> EmptyString ->
  strip g2 <> EmptyString.
Proof.
  intros Hline Hg2. apply (strip_suffix_nonempty p); [| exact Hg2].
  rewrite <- Hline. apply strip_stripped.
Qed.

Lemma chapter_heading_fields (raw g1 g2 : string) :
  no_newline raw = true ->
  chapter_match (strip raw) = Some (g1, g2) ->
  numeral_text g1 /\ strip g2 <> EmptyString.
Proof.
  intros Hraw Hm.
  destruct (chapter_match_groups _ _ _ (no_newline_strip _ Hraw) Hm)
    as (lab & ws & sep & Hline & _ & _ & _ & Hnum & Hnne & _ & Hg2).
  split; [now split |].
  apply (heading_title_nonempty raw (lab ++ ws ++ g1 ++ sep)); [| exact Hg2].
  now rewrite !append_assoc.
Qed.

Lemma section_heading_fields (raw g1 g2 : string) :
  no_newline raw = true ->
  section_match (strip raw) = Some (g1, g2) ->
  digits g1 = true /\ g1 <> EmptyString /\ strip g2 <> EmptyString.
Proof.
  intros Hraw Hm.
  destruct (section_match_groups _ _ _ (no_newline_strip _ Hraw) Hm)
    as (lab & ws & sep & Hline & _ & _ & Hnum & Hnne & _ & Hg2).
  split; [assumption |]. split; [assumption |].
  apply (heading_title_nonempty raw (lab ++ ws ++ g1 ++ sep)); [| exact Hg2].
  now rewrite !append_assoc.
Qed.

Lemma sections_from_ok num title (ls : list string) :
  Forall (fun raw => no_newline raw = true) ls ->
  chapter_ok num -> title <> EmptyString -> stripped title ->
  Forall record_ok (sections_from num title ls).
Proof.
  intros Hls. revert num title.
  induction Hls as [|raw ls Hraw _ IH]; intros num title Hnum Hne Hst;
    cbn [sections_from]; [constructor |].
  destruct (chapter_match (strip raw)) as [[g1 g2]|] eqn:Hc.
  - destruct (chapter_heading_fields raw g1 g2 Hraw Hc) as [Hg1 Hg2].
    apply IH; [right; eauto | exact Hg2 | apply strip_stripped].
  - destruct (section_match (strip raw)) as [[g1 g2]|] eqn:Hs; [| now apply IH].
    destruct (section_heading_fields raw g1 g2 Hraw Hs) as (Hd & _ & Hg2).
    destruct (truthy _) eqn:Ht; cbn [app]; [| now apply IH].
    constructor; [| now apply IH].
    unfold record_ok. cbn.
    repeat split; auto using strip_stripped, int_of_digits_nonneg.
    now apply truthy_true.
Qed.

Lemma parse_records_ok (text : string) :
  exists rs, parse_slpc_sections text = Some rs /\ Forall record_ok rs.
Proof.
  unfold parse_slpc_sections. rewrite parse_lines_sections.
  eexists. split; [reflexivity |].
  apply sections_from_ok.
  - apply split_nl_no_newline.
  - now left.
  - discriminate.
  - reflexivity.
Qed.

(** ** Headings and records *)

Lemma sections_from_no_section num title (ls : list string) :
  Forall (fun raw => classify raw <> KSection) ls ->
  sections_from num title ls = [].
Proof.
  intros Hls. revert num title.
  induction Hls as [|raw ls Hraw _ IH]; intros num title; [reflexivity |].
  cbn [sections_from]. unfold classify in Hraw.
  destruct (chapter_match (strip raw)) as [[g1 g2]|]; [apply IH |].
  destruct (section_match (strip raw)) as [[g1 g2]|]; [congruence | apply IH].
Qed.

Lemma sections_from_sublist num title (ls : list string) :
  sublist (map (fun r => (Section_ r, section_title r))
             (sections_from num title ls))
    (section_headings ls).
Proof.
  revert num title. induction ls as [|raw ls IH]; intros num title;
    cbn [sections_from section_headings]; [constructor |].
  unfold classify.
  destruct (chapter_match (strip raw)) as [[c1 c2]|]; [apply IH |].
  destruct (section_match (strip raw)) as [[g1 g2]|]; [| apply IH].
  destruct (truthy _); cbn [app map].
  - apply sublist_skip, IH.
  - apply sublist_cons, IH.
Qed.

(** ** Lines that do not matter *)

Lemma blank_not_heading (raw : string) :
  not_blank raw = false -> is_heading (strip raw) = false.
Proof.
  unfold not_blank. destruct (strip raw); [reflexivity | discriminate].
Qed.

Lemma body_run_filter (rest : list string) :
  body_run (List.filter not_blank rest) = List.filter not_blank (body_run rest).
Proof.
  induction rest as [|raw rest IH]; [reflexivity |].
  cbn [List.filter body_run].
  destruct (not_blank raw) eqn:Hb.
  - cbn [body_run]. destruct (is_heading (strip raw)); [reflexivity |].
    cbn [List.filter]. now rewrite Hb, IH.
  - rewrite (blank_not_heading _ Hb). cbn [List.filter]. now rewrite Hb.
Qed.

Lemma body_text_filter (run : list string) (desc : string) :
  body_text (List.filter not_blank run) desc = body_text run desc.
Proof.
  revert desc. induction run as [|raw run IH]; intros desc; [reflexivity |].
  cbn [List.filter body_text]. unfold not_blank at 1.
  destruct (truthy (strip raw)) eqn:Hb; cbn [body_text]; [| apply IH].
  now rewrite Hb, IH.
Qed.

Lemma sections_from_filter num title (ls : list string) :
  sections_from num title (List.filter not_blank ls)
  = sections_from num title ls.
Proof.
  revert num title. induction ls as [|raw ls IH]; intros num title;
    [reflexivity |].
  cbn [List.filter]. destruct (not_blank raw) eqn:Hb.
  - cbn [sections_from]. rewrite body_run_filter, body_text_filter.
    destruct (chapter_match (strip raw)) as [[g1 g2]|]; [apply IH |].
    destruct (section_match (strip raw)) as [[g1 g2]|]; now rewrite IH.
  - cbn [sections_from]. apply blank_not_heading, is_heading_false in Hb
      as [-> ->]. apply IH.
Qed.

Lemma body_run_strip (rest : list string) :
  body_run (map strip rest) = map strip (body_run rest).
Proof.
  induction rest as [|raw rest IH]; [reflexivity |].
  cbn [map body_run]. rewrite strip_idem.
  destruct (is_heading (strip raw)); [reflexivity |].
  cbn [map]. now rewrite IH.
Qed.

Lemma body_text_strip (run : list string) (desc : string) :
  body_text (map strip run) desc = body_text run desc.
Proof.
  revert desc. induction run as [|raw run IH]; intros desc; [reflexivity |].
  cbn [map body_text]. now rewrite strip_idem, IH.
Qed.

Lemma sections_from_strip num title (ls : list string) :
  sections_from num title (map strip ls) = sections_from num title ls.
Proof.
  revert num title. induction ls as [|raw ls IH]; intros num title;
    [reflexivity |].
  cbn [map sections_from].
  rewrite strip_idem, body_run_strip, body_text_strip.
  destruct (chapter_match (strip raw)) as [[g1 g2]|]; [apply IH |].
  destruct (section_match (strip raw)) as [[g1 g2]|]; now rewrite IH.
Qed.

(** ** Texts in parts *)

Lemma context_after_cons c raw (ls : list string) :
  context_after c (raw :: ls)
  = context_after
      match chapter_match (strip raw) with
      | Some (g1, g2) => (ChapterText g1, strip g2)
      | None => c
      end ls.
Proof. reflexivity. Qed.

(** The records of two runs of lines, the second starting with a heading
    (or empty): those of the first, then those of the second under the
    chapter context the first leaves. *)
Lemma sections_from_app num title (pre post : list string) :
  match post with
  | [] => True
  | h :: _ => is_heading (strip h) = true
  end ->
  sections_from num title (pre ++ post)
  = sections_from num title pre
    ++ sections_from (fst (context_after (num, title) pre))
         (snd (context_after (num, title) pre)) post.
Proof.
  intros Hpost. revert num title.
  induction pre as [|raw pre IH]; intros num title; [reflexivity |].
  cbn [app sections_from]. rewrite context_after_cons.
  assert (body_run (pre ++ post) = body_run pre) as Hrun.
  { destruct post as [|h post]; [now rewrite app_nil_r |].
    now apply body_run_app_heading. }
  destruct (chapter_match (strip raw)) as [[g1 g2]|]; [apply IH |].
  rewrite Hrun, IH.
  destruct (section_match (strip raw)) as [[g1 g2]|]; [| reflexivity].
  now rewrite app_assoc.
Qed.

Lemma sections_from_chapter_first num title num' title' (post : list string) :
  match post with
  | [] => True
  | h :: _ => classify h = KChapter
  end ->
  sections_from num title post = sections_from num' title' post.
Proof.
  destruct post as [|h post]; [reflexivity |]. unfold classify. intros Hh.
  apply sections_from_chapter.
  destruct (chapter_match (strip h)); [discriminate |].
  destruct (section_match (strip h)); discriminate.
Qed.

Lemma parse_app_chapter (a b : string) :
  match split_nl b with
  | [] => True
  | h :: _ => classify h = KChapter
  end ->
  exists ra rb,
    parse_slpc_sections a = Some ra
    /\ parse_slpc_sections b = Some rb
    /\ parse_slpc_sections (a ++ nl ++ b)%string = Some (ra ++ rb).
Proof.
  intros Hb. unfold parse_slpc_sections.
  rewrite split_nl_app, !parse_lines_sections.
  do 2 eexists. split; [reflexivity |]. split; [reflexivity |]. f_equal.
  rewrite sections_from_app.
  - f_equal. now apply sections_from_chapter_first.
  - destruct (split_nl b) as [|h post]; [exact I |].
    unfold classify in Hb. unfold is_heading.
    destruct (chapter_match (strip h)); [reflexivity |].
    destruct (section_match (strip h)); discriminate.
Qed.

(** ** What a body becomes *)

Lemma body_text_acc (run : list string) (desc : string) :
  body_text run desc = (desc ++ body_text run "")%string.
Proof.
  revert desc. induction run as [|raw run IH]; intros desc; cbn [body_text].
  - now rewrite append_nil_r.
  - destruct (truthy (strip raw)); [| apply IH].
    rewrite IH, (IH (_ ++ _)%string), append_nil_l, !append_assoc.
    reflexivity.
Qed.

Lemma join_nonempty sep a (l : list string) :
  a <> EmptyString -> join sep (a :: l) <> EmptyString.
Proof.
  destruct a as [|c a]; [congruence |]. intros _.
  destruct l; cbn [join]; [discriminate |].
  rewrite append_cons. discriminate.
Qed.

Lemma body_lines_cons raw (run : list string) :
  body_lines (raw :: run)
  = if truthy (strip raw) then strip raw :: body_lines run
    else body_lines run.
Proof. reflexivity. Qed.

Lemma body_lines_nonempty (run : list string) :
  Forall (fun l => l <> EmptyString) (body_lines run).
Proof.
  induction run as [|raw run IH]; [constructor |].
  rewrite body_lines_cons. destruct (truthy (strip raw)) eqn:Ht; [| exact IH].
  constructor; [| exact IH]. now apply truthy_true.
Qed.

Lemma rstrip_body_text (run : list string) :
  rstrip (body_text run "") = join " " (body_lines run).
Proof.
  induction run as [|raw run IH]; [reflexivity |].
  cbn [body_text]. rewrite body_lines_cons.
  destruct (truthy (strip raw)) eqn:Ht; [| exact IH].
  rewrite body_text_acc, append_nil_l, rstrip_app, IH.
  pose proof (body_lines_nonempty run) as Hne.
  destruct (body_lines run) as [|b bs] eqn:Hb.
  - cbn [join]. rewrite rstrip_app. cbn.
    apply stripped_rstrip, strip_stripped.
  - apply Forall_cons_1 in Hne as [Hbne _].
    pose proof (join_nonempty " " b bs Hbne) as Hj.
    destruct (join " " (b :: bs)) as [|c t] eqn:Hjoin; [congruence |].
    change (join " " (strip raw :: b :: bs))
      with (strip raw ++ " " ++ join " " (b :: bs))%string.
    now rewrite Hjoin, append_assoc.
Qed.

Lemma lstrip_body_text (run : list string) :
  lstrip (body_text run "") = body_text run "".
Proof.
  induction run as [|raw run IH]; [reflexivity |].
  cbn [body_text]. destruct (truthy (strip raw)) eqn:Ht; [| exact IH].
  rewrite body_text_acc, append_nil_l.
  destruct (strip raw) as [|c t] eqn:Hs; [discriminate |].
  rewrite !append_cons. apply lstrip_nonspace.
  now apply (strip_head raw c t).
Qed.

(** The text of a body: its lines that are not blank, stripped and joined
    by single blanks. *)
Lemma body_text_joined (run : list string) :
  strip (body_text run "") = join " " (body_lines run).
Proof. unfold strip. now rewrite lstrip_body_text, rstrip_body_text. Qed.

Lemma body_run_all (body post : list string) :
  Forall (fun raw => is_heading (strip raw) = false) body ->
  match post with
  | [] => True
  | h :: _ => is_heading (strip h) = true
  end ->
  body_run (body ++ post) = body.
Proof.
  intros Hbody Hpost. induction Hbody as [|raw body Hraw _ IH].
  - destruct post as [|h post]; [reflexivity |]. cbn. now rewrite Hpost.
  - cbn [app body_run]. now rewrite Hraw, IH.
Qed.

Lemma sections_from_body num title (body post : list string) :
  Forall (fun raw => is_heading (strip raw) = false) body ->
  sections_from num title (body ++ post) = sections_from num title post.
Proof.
  induction 1 as [|raw body Hraw _ IH]; [reflexivity |].
  cbn [app sections_from].
  apply is_heading_false in Hraw as [-> ->]. exact IH.
Qed.

(** A section heading, its body and what follows. *)
Lemma sections_from_section num title h g1 g2 (body post : list string) :
  chapter_match (strip h) = None ->
  section_match (strip h) = Some (g1, g2) ->
  Forall (fun raw => is_heading (strip raw) = false) body ->
  match post with
  | [] => True
  | h' :: _ => is_heading (strip h') = true
  end ->
  sections_from num title (h :: body ++ post)
  = match body_lines body with
    | [] => []
    | _ => [{| chapter := num; chapter_title := title;
               Section_ := int_of_digits g1;
               section_title := strip g2;
               section_desc := join " " (body_lines body) |}]
    end ++ sections_from num title post.
Proof.
  intros Hc Hs Hbody Hpost. cbn [sections_from]. rewrite Hc, Hs.
  rewrite (body_run_all _ _ Hbody Hpost), body_text_joined.
  rewrite (sections_from_body _ _ _ _ Hbody). f_equal.
  pose proof (body_lines_nonempty body) as Hne.
  destruct (body_lines body) as [|b bs]; [reflexivity |].
  apply Forall_cons_1 in Hne as [Hb _].
  pose proof (join_nonempty " " b bs Hb) as Hj.
  destruct (join " " (b :: bs)); [congruence | reflexivity].
Qed.

(** ** Records under a chapter heading *)

Lemma sections_from_under num title num' title' (ls : list string) :
  Forall (fun raw => chapter_match (strip raw) = None) ls ->
  sections_from num title ls
  = map (fun r => {| chapter := num; chapter_title := title;
                     Section_ := Section_ r;
                     section_title := section_title r;
                     section_desc := section_desc r |})
      (sections_from num' title' ls).
Proof.
  induction 1 as [|raw ls Hraw _ IH]; [reflexivity |].
  cbn [sections_from]. rewrite Hraw.
  destruct (section_match (strip raw)) as [[g1 g2]|]; [| exact IH].
  rewrite map_app, IH. f_equal. now destruct (truthy _).
Qed.

Lemma chapter_is_heading (line : string) (gs : string * string) :
  chapter_match line = Some gs -> is_heading line = true.
Proof. unfold is_heading. now intros ->. Qed.

Lemma sections_from_after_chapter (pre : list string) h g1 g2
    (post : list string) :
  chapter_match (strip h) = Some (g1, g2) ->
  Forall (fun raw => chapter_match (strip raw) = None) post ->
  sections_from (ChapterNum 0) "Unknown" (pre ++ h :: post)
  = sections_from (ChapterNum 0) "Unknown" pre
    ++ map (fun r => {| chapter := ChapterText g1;
                        chapter_title := strip g2;
                        Section_ := Section_ r;
                        section_title := section_title r;
                        section_desc := section_desc r |})
         (sections_from (ChapterNum 0) "Unknown" post).
Proof.
  intros Hh Hpost. rewrite sections_from_app
    by (cbn; now apply (chapter_is_heading _ (g1, g2))).
  f_equal. cbn [sections_from]. rewrite Hh.
  now apply sections_from_under.
Qed.

(** ** Before the first chapter heading *)

Lemma context_after_no_chapter c (ls : list string) :
  Forall (fun raw => chapter_match (strip raw) = None) ls ->
  context_after c ls = c.
Proof.
  induction 1 as [|raw ls Hraw _ IH]; [reflexivity |].
  rewrite context_after_cons, Hraw. exact IH.
Qed.

(** C10.  A section heading met before the first chapter heading gives a
    record whose chapter is the integer 0 and whose chapter title is
    "Unknown".  When the lines [pre] of a text hold no chapter heading
    and are followed by a section heading [h] with its body and then by
    the end of the text or a heading, the records of the text are those
    of [pre], all with chapter 0 and "Unknown", then the record of [h]
    with chapter 0 and "Unknown", then the records of the rest. *)
Theorem parse_before_first_chapter (text : string) (pre : list string)
    (h g1 g2 : string) (body post : list string) :
  split_nl text = pre ++ h :: body ++ post ->
  Forall (fun raw => chapter_match (strip raw) = None) pre ->
  section_match (strip h) = Some (g1, g2) ->
  Forall (fun raw => is_heading (strip raw) = false) body ->
  body_lines body <> [] ->
  match post with
  | [] => True
  | h' :: _ => is_heading (strip h') = true
  end ->
  exists before after,
    parse_lines pre = Some before
    /\ parse_lines post = Some after
    /\ Forall initial_context before
    /\ parse_slpc_sections text
       = Some (before
               ++ {| chapter := ChapterNum 0; chapter_title := "Unknown";
                     Section_ := int_of_digits g1;
                     section_title := strip g2;
                     section_desc := join " " (body_lines body) |}
                  :: after).
Proof.
  intros Hlines Hpre Hs Hbody Hne Hpost.
  assert (chapter_match (strip h) = None) as Hc.
  { destruct (chapter_match (strip h)) as [gs|] eqn:Hc; [| reflexivity].
    rewrite (heading_kinds_disjoint (strip h)) in Hs; congruence. }
  unfold parse_slpc_sections. rewrite Hlines, !parse_lines_sections.
  do 2 eexists.
  split; [reflexivity |]. split; [reflexivity |].
  split; [now apply sections_from_context |].
  f_equal. rewrite sections_from_app.
  - f_equal. rewrite (context_after_no_chapter _ _ Hpre). cbn [fst snd].
    rewrite (sections_from_section _ _ h g1 g2); auto.
    destruct (body_lines body); [congruence | reflexivity].
  - unfold is_heading. now rewrite Hc, Hs.
Qed.

Lemma parse_before_first_chapter_witness :
  parse_slpc_sections
    ("PENAL CODE" ++ nl ++ "Section 1. Short title" ++ nl ++
     "This Code may be called" ++ nl ++ "the Penal Code." ++ nl ++
     "CHAPTER II General" ++ nl ++ "Section 2. Punishment" ++ nl ++
     "Every person liable shall be punished.")%string
  = Some
      [ {| chapter := ChapterNum 0; chapter_title := "Unknown";
           Section_ := 1; section_title := "Short title";
           section_desc := "This Code may be called the Penal Code." |};
        {| chapter := ChapterText "II"; chapter_title := "General";
           Section_ := 2; section_title := "Punishment";
           section_desc := "Every person liable shall be punished." |} ].
Proof.
  destruct (parse_before_first_chapter
              ("PENAL CODE" ++ nl ++ "Section 1. Short title" ++ nl ++
               "This Code may be called" ++ nl ++ "the Penal Code." ++ nl ++
               "CHAPTER II General" ++ nl ++ "Section 2. Punishment" ++ nl ++
               "Every person liable shall be punished.")%string
              ["PENAL CODE"%string]
              "Section 1. Short title" "1" "Short title"
              ["This Code may be called"; "the Penal Code."]%string
              ["CHAPTER II General"; "Section 2. Punishment";
               "Every person liable shall be punished."]%string)
    as (before & after & Hbefore & Hafter & _ & Hrecords).
  - reflexivity.
  - repeat constructor.
  - reflexivity.
  - repeat constructor.
  - vm_compute. discriminate.
  - reflexivity.
  - vm_compute in Hbefore, Hafter.
    injection Hbefore as <-. injection Hafter as <-.
    exact Hrecords.
Defined.

(** * The extractor and the builder's input *)

(** ** The text of the pages *)

Lemma add_pages_text (pages : list string) (text : string) :
  exists rest,
    add_pages (map Some pages) text = Ok (text ++ rest)%string
    /\ split_nl rest = page_lines pages ++ [EmptyString].
Proof.
  revert text. induction pages as [|page pages IH]; intros text.
  - exists EmptyString. now rewrite append_nil_r.
  - cbn [map add_pages].
    destruct (IH (text ++ (page ++ nl))%string) as (rest & -> & Hrest).
    exists (page ++ nl ++ rest)%string. split.
    + now rewrite !append_assoc.
    + rewrite split_nl_app, Hrest. unfold page_lines. cbn [map concat].
      now rewrite app_assoc.
Qed.

Lemma add_pages_none (before : list string) (after : list (option string))
    (text : string) :
  add_pages (map Some before ++ None :: after) text = Raise TypeError.
Proof.
  revert text. induction before as [|page before IH]; intros text;
    [reflexivity |].
  cbn [map app add_pages]. apply IH.
Qed.

Lemma extract_text_lines (pdfs : gmap string pdf_reading) (path : string)
    (pages : list string) :
  pdfs !! path = Some (Ok (map Some pages)) ->
  exists text,
    extract_text_from_pdf pdfs path = Ok text
    /\ split_nl text = page_lines pages ++ [EmptyString].
Proof.
  intros Hpdf. unfold extract_text_from_pdf. rewrite Hpdf. cbn.
  destruct (add_pages_text pages EmptyString) as (rest & -> & Hrest).
  exists rest. now rewrite append_nil_l.
Qed.

Lemma filter_not_blank_end (ls : list string) :
  List.filter not_blank (ls ++ [EmptyString]) = List.filter not_blank ls.
Proof.
  induction ls as [|l ls IH]; [reflexivity |].
  cbn [app List.filter]. now rewrite IH.
Qed.

Lemma parse_lines_blank_end (ls : list string) :
  parse_lines (ls ++ [EmptyString]) = parse_lines ls.
Proof.
  rewrite !parse_lines_sections. f_equal.
  rewrite <- sections_from_filter, filter_not_blank_end.
  apply sections_from_filter.
Qed.

Lemma extract_then_parse (pdfs : gmap string pdf_reading) (path : string)
    (pages : list string) :
  pdfs !! path = Some (Ok (map Some pages)) ->
  exists text,
    extract_text_from_pdf pdfs path = Ok text
    /\ parse_slpc_sections text = parse_lines (page_lines pages).
Proof.
  intros Hpdf.
  destruct (extract_text_lines _ _ _ Hpdf) as (text & Htext & Hlines).
  exists text. split; [exact Htext |].
  unfold parse_slpc_sections. rewrite Hlines. apply parse_lines_blank_end.
Qed.

(** ** [main] *)

Lemma main_result (pdfs : gmap string pdf_reading)
    (files : gmap string string) (pages : list string) :
  pdfs !! PDF_PATH = Some (Ok (map Some pages)) ->
  exists rs,
    parse_lines (page_lines pages) = Some rs
    /\ main pdfs files
       = Some (Ok match rs with
                  | [] => files
                  | _ => save_to_json (records_value rs) OUTPUT_PATH files
                  end).
Proof.
  intros Hpdf.
  destruct (extract_then_parse _ _ _ Hpdf) as (text & Htext & Hparse).
  rewrite parse_lines_sections in Hparse |- *.
  eexists. split; [reflexivity |].
  unfold main. rewrite Hpdf, Htext, Hparse.
  now destruct (sections_from _ _ _).
Qed.

Lemma main_without_sections (pdfs : gmap string pdf_reading)
    (files : gmap string string) (pages : list string) :
  pdfs !! PDF_PATH = Some (Ok (map Some pages)) ->
  Forall (fun raw => classify raw <> KSection) (page_lines pages) ->
  main pdfs files = Some (Ok files).
Proof.
  intros Hpdf Hnone.
  destruct (main_result pdfs files pages Hpdf) as (rs & Hrs & ->).
  rewrite parse_lines_sections in Hrs. injection Hrs as <-.
  now rewrite sections_from_no_section.
Qed.

Lemma main_page_without_text (pdfs : gmap string pdf_reading)
    (files : gmap string string) (before : list string)
    (after : list (option string)) :
  pdfs !! PDF_PATH = Some (Ok (map Some before ++ None :: after)) ->
  main pdfs files = Some (Raise TypeError).
Proof.
  intros Hpdf. unfold main, extract_text_from_pdf. rewrite Hpdf. cbn.
  now rewrite add_pages_none.
Qed.

(** ** Readable entries *)

Lemma subscript_has_key (d : list (string * pyval)) (key : string) :
  has_key d key = true ->
  exists v, subscript (PyDict d) key = Ok v.
Proof.
  unfold has_key, subscript.
  destruct (dict_get key d) as [v|]; [| discriminate].
  eauto.
Qed.

Lemma subscript_no_key (d : list (string * pyval)) (key : string) :
  has_key d key = false ->
  subscript (PyDict d) key = Raise (KeyError key).
Proof.
  unfold has_key, subscript. now destruct (dict_get key d).
Qed.

Lemma prepare_document_missing (d : list (string * pyval)) :
  match missing_key d with
  | Some key => prepare_document (PyDict d) = Raise (KeyError key)
  | None => exists doc, prepare_document (PyDict d) = Ok doc
  end.
Proof.
  unfold missing_key, required_keys, prepare_document. cbn [List.find].
  destruct (has_key d "Section") eqn:H1; cbn [negb];
    [apply subscript_has_key in H1 as [v1 ->]
    | now rewrite (subscript_no_key _ _ H1)].
  destruct (has_key d "section_title") eqn:H2; cbn [negb];
    [apply subscript_has_key in H2 as [v2 ->]
    | now rewrite (subscript_no_key _ _ H2)].
  destruct (has_key d "section_desc") eqn:H3; cbn [negb];
    [apply subscript_has_key in H3 as [v3 ->]
    | now rewrite (subscript_no_key _ _ H3)].
  destruct (has_key d "chapter") eqn:H4; cbn [negb];
    [apply subscript_has_key in H4 as [v4 ->]
    | now rewrite (subscript_no_key _ _ H4)].
  destruct (has_key d "chapter_title") eqn:H5; cbn [negb];
    [apply subscript_has_key in H5 as [v5 ->]
    | now rewrite (subscript_no_key _ _ H5)].
  cbn. eauto.
Qed.

Lemma missing_key_readable (d : list (string * pyval)) :
  missing_key d = None <-> readable (PyDict d) = true.
Proof.
  unfold missing_key, readable, required_keys. cbn [List.find forallb].
  destruct (has_key d "Section"), (has_key d "section_title"),
    (has_key d "section_desc"), (has_key d "chapter"),
    (has_key d "chapter_title"); cbn; split; congruence.
Qed.

Lemma prepare_document_readable (entry : pyval) :
  readable entry = true <-> exists doc, prepare_document entry = Ok doc.
Proof.
  destruct entry as [| | | | |l|d];
    try (split; [discriminate | intros [doc Hdoc]; discriminate]).
  rewrite <- missing_key_readable.
  pose proof (prepare_document_missing d) as Hd.
  destruct (missing_key d) as [key|].
  - rewrite Hd. split; [discriminate | intros [doc Hdoc]; discriminate].
  - split; auto.
Qed.

Lemma comprehension_readable (entries : list pyval) :
  forallb readable entries = true
  <-> exists docs,
        comprehension prepare_document entries = Ok docs
        /\ length docs = length entries.
Proof.
  induction entries as [|entry entries IH]; cbn [forallb comprehension].
  - split; [| reflexivity]. intros _. now exists [].
  - rewrite andb_true_iff, IH, prepare_document_readable. split.
    + intros [[doc ->] (docs & -> & Hlen)]. cbn.
      exists (doc :: docs). cbn. now rewrite Hlen.
    + destruct (prepare_document entry) as [doc|e];
        [| intros (docs & Hdocs & _); discriminate].
      cbn. destruct (comprehension prepare_document entries) as [docs'|e];
        [| intros (docs & Hdocs & _); discriminate].
      cbn. intros (docs & [= <-] & Hlen). split; [eauto |].
      exists docs'. split; [reflexivity |]. cbn in Hlen. lia.
Qed.

Lemma comprehension_first_error (good : list pyval) bad (rest : list pyval) e :
  forallb readable good = true ->
  prepare_document bad = Raise e ->
  comprehension prepare_document (good ++ bad :: rest) = Raise e.
Proof.
  intros Hgood Hbad. induction good as [|entry good IH].
  - cbn. now rewrite Hbad.
  - cbn [forallb] in Hgood. apply andb_prop in Hgood as [Hentry Hgood].
    apply prepare_document_readable in Hentry as [doc Hdoc].
    cbn [app comprehension]. rewrite Hdoc, (IH Hgood). reflexivity.
Qed.

(** * More on the builder and the search tool *)

Lemma append_inv_head (p a b : string) :
  (p ++ a)%string = (p ++ b)%string -> a = b.
Proof.
  induction p as [|c p IH]; [now rewrite !append_nil_l |].
  rewrite !append_cons. intros [= H]. auto.
Qed.

Lemma chapter_value_inj (c c' : chapter_id) :
  chapter_value c = chapter_value c' -> c = c'.
Proof. destruct c, c'; cbn; congruence. Qed.

(** A hit tells which record it was made from. *)
Lemma hit_of_document_record (r r' : SectionRecord) :
  hit_of (document_of r) = hit_of (document_of r') -> r = r'.
Proof.
  destruct r as [c ct n t d], r' as [c' ct' n' t' d'].
  unfold hit_of, document_of. cbn.
  intros [= Hn Ht Hc Hct Hd]. subst n' t' ct'.
  apply chapter_value_inj in Hc as <-.
  f_equal. now do 6 apply append_inv_head in Hd.
Qed.

Section Runs.
Context {V : VectorStore}.


(** The documents are all made before the store is called: a corpus
    that cannot be read or prepared stops the build there. *)
Lemma build_stops_before_store (env : gmap string string) (w : world V)
    (path dir name : string) (e : exn) :
  env !! "SLPC_JSON_PATH" = Some path ->
  env !! "PERSIST_DIRECTORY_PATH" = Some dir ->
  env !! "SLPC_COLLECTION_NAME" = Some name ->
  truthy path = true -> truthy dir = true -> truthy name = true ->
  (data ← load_slpc_data path (files w); prepare_documents data) = Raise e ->
  build_slpc_vectordb env w = (Raise e, log (ReadFile path) w).
Proof.
  intros Hpath Hdir Hname Hp Hd Hn Hfail.
  unfold build_slpc_vectordb. rewrite Hpath, Hdir, Hname.
  cbn [forallb is_set]. rewrite Hp, Hd, Hn. cbn [andb].
  destruct (load_slpc_data path (files w)) as [data|e'];
    cbn in Hfail; [| congruence].
  now rewrite Hfail.
Qed.

(** From the pages of the PDF to the documents handed to the store. *)
Lemma build_after_main (pdfs : gmap string pdf_reading) (pages : list string)
    (env : gmap string string) (dir name : string) (w : world V)
    (files' : gmap string string) :
  pdfs !! PDF_PATH = Some (Ok (map Some pages)) ->
  main pdfs (files w) = Some (Ok files') ->
  files' <> files w ->
  env !! "SLPC_JSON_PATH" = Some OUTPUT_PATH ->
  env !! "PERSIST_DIRECTORY_PATH" = Some dir ->
  env !! "SLPC_COLLECTION_NAME" = Some name ->
  truthy dir = true -> truthy name = true ->
  exists rs,
    parse_lines (page_lines pages) = Some rs
    /\ build_slpc_vectordb env
         {| files := files'; index := index w; io_log := io_log w |}
       = match from_documents (map document_of rs) dir name (index w) with
         | Ok s' =>
             (Ok tt,
              {| files := files'; index := s';
                 io_log := StoreWrite dir name :: ReadFile OUTPUT_PATH
                             :: io_log w |})
         | Raise e =>
             (Raise e,
              {| files := files'; index := index w;
                 io_log := StoreWrite dir name :: ReadFile OUTPUT_PATH
                             :: io_log w |})
         end.
Proof.
  intros Hpdf Hmain Hnew Hpath Hdir Hname Hd Hn.
  destruct (main_result pdfs (files w) pages Hpdf) as (rs & Hrs & Hres).
  rewrite Hres in Hmain. injection Hmain as Hfiles.
  exists rs. split; [exact Hrs |].
  destruct rs as [|r rs]; [congruence |].
  unfold build_slpc_vectordb. rewrite Hpath, Hdir, Hname.
  cbn [forallb is_set]. rewrite Hd, Hn.
  change (truthy OUTPUT_PATH) with true. cbn [andb files index log io_log].
  rewrite <- Hfiles, load_saved_corpus, prepare_documents_records.
  now destruct (from_documents _ _ _ _).
Qed.

End Runs.

(** * Further properties of the extractor, the builder and the search tool *)

(** ** Headings *)

(** X1.  The groups of a chapter heading, for lines of characters below
    U+0100 (the range of the model).  When such a line, without line
    break, matches the chapter pattern, the line is the chapter label in
    any case, at least one blank, the first group, separators (colons and
    blanks) and the second group, with nothing left over; the first group
    is a non-empty run of roman numeral letters or of digits and the
    second group is not empty. *)
Theorem chapter_heading_groups (line g1 g2 : string) :
  no_newline line = true ->
  chapter_match line = Some (g1, g2) ->
  exists lab ws sep,
    line = (lab ++ ws ++ g1 ++ sep ++ g2)%string
    /\ chapter_label lab = true
    /\ blanks ws = true /\ ws <> EmptyString
    /\ (roman g1 = true \/ digits g1 = true) /\ g1 <> EmptyString
    /\ chapter_separators sep = true
    /\ g2 <> EmptyString.
Proof. apply chapter_match_groups. Qed.

Lemma chapter_heading_groups_witness :
  exists lab ws sep,
    "Chapter IV:  Of Abetment"%string
    = (lab ++ ws ++ "IV" ++ sep ++ "Of Abetment")%string
    /\ chapter_label lab = true
    /\ blanks ws = true /\ ws <> EmptyString
    /\ (roman "IV" = true \/ digits "IV" = true) /\ "IV"%string <> EmptyString
    /\ chapter_separators sep = true
    /\ "Of Abetment"%string <> EmptyString.
Proof.
  apply (chapter_heading_groups "Chapter IV:  Of Abetment"); reflexivity.
Defined.

(** X2.  The groups of a section heading, for lines of characters below
    U+0100 (the range of the model).  When such a line, without line
    break, matches the section pattern, the line is the section label
    (the word in any case, or the sign), blanks if any, the first group,
    separators (colons, points and blanks) and the second group, with
    nothing left over; the first group is a non-empty run of digits and
    the second group is not empty. *)
Theorem section_heading_groups (line g1 g2 : string) :
  no_newline line = true ->
  section_match line = Some (g1, g2) ->
  exists lab ws sep,
    line = (lab ++ ws ++ g1 ++ sep ++ g2)%string
    /\ section_label lab = true
    /\ blanks ws = true
    /\ digits g1 = true /\ g1 <> EmptyString
    /\ section_separators sep = true
    /\ g2 <> EmptyString.
Proof. apply section_match_groups. Qed.

Lemma section_heading_groups_witness :
  exists lab ws sep,
    "section365. Theft"%string
    = (lab ++ ws ++ "365" ++ sep ++ "Theft")%string
    /\ section_label lab = true
    /\ blanks ws = true
    /\ digits "365" = true /\ "365"%string <> EmptyString
    /\ section_separators sep = true
    /\ "Theft"%string <> EmptyString.
Proof.
  apply (section_heading_groups "section365. Theft"); reflexivity.
Defined.

(** X3.  Which lines of characters below U+0100 (the range of the model)
    are chapter headings.  Such a line, without line break, matches the
    chapter pattern exactly when it starts with the chapter label in any
    case, at least one blank and a non-empty run of roman numeral letters
    or of digits, and something follows. *)
Theorem chapter_heading_recognised (line : string) :
  no_newline line = true ->
  chapter_match line <> None
  <-> exists lab ws num rest,
        line = (lab ++ ws ++ num ++ rest)%string
        /\ chapter_label lab = true
        /\ blanks ws = true /\ ws <> EmptyString
        /\ (roman num = true \/ digits num = true) /\ num <> EmptyString
        /\ rest <> EmptyString.
Proof. apply chapter_heading_shape. Qed.

Lemma chapter_heading_recognised_witness :
  chapter_match "chapter 12 Of Theft" <> None
  <-> exists lab ws num rest,
        "chapter 12 Of Theft"%string = (lab ++ ws ++ num ++ rest)%string
        /\ chapter_label lab = true
        /\ blanks ws = true /\ ws <> EmptyString
        /\ (roman num = true \/ digits num = true) /\ num <> EmptyString
        /\ rest <> EmptyString.
Proof.
  apply (chapter_heading_recognised "chapter 12 Of Theft"). reflexivity.
Defined.

(** X4.  Which lines of characters below U+0100 (the range of the model)
    are section headings.  Such a line, without line break, matches the
    section pattern exactly when it starts with the section label (the
    word in any case, or the sign), blanks if any and a non-empty run of
    digits, and something follows. *)
Theorem section_heading_recognised (line : string) :
  no_newline line = true ->
  section_match line <> None
  <-> exists lab ws num rest,
        line = (lab ++ ws ++ num ++ rest)%string
        /\ section_label lab = true
        /\ blanks ws = true
        /\ digits num = true /\ num <> EmptyString
        /\ rest <> EmptyString.
Proof. apply section_heading_shape. Qed.

Lemma section_heading_recognised_witness :
  section_match "SECTION 3 Definitions" <> None
  <-> exists lab ws num rest,
        "SECTION 3 Definitions"%string = (lab ++ ws ++ num ++ rest)%string
        /\ section_label lab = true
        /\ blanks ws = true
        /\ digits num = true /\ num <> EmptyString
        /\ rest <> EmptyString.
Proof.
  apply (section_heading_recognised "SECTION 3 Definitions"). reflexivity.
Defined.

(** X5.  No line is both kinds of heading: a line that matches the
    chapter pattern does not match the section pattern, so the order of
    the two tests in the loop decides nothing. *)
Theorem heading_never_both (line : string) (gs : string * string) :
  chapter_match line = Some gs -> section_match line = None.
Proof. intros Hc. apply heading_kinds_disjoint. congruence. Qed.

Lemma heading_never_both_witness :
  section_match "CHAPTER I General" = None.
Proof.
  apply (heading_never_both "CHAPTER I General" ("I", "General")%string).
  reflexivity.
Defined.

(** X6.  A chapter heading that ends with its numeral, of two characters
    or more, all roman numeral letters or all digits: the first group is
    the numeral without its last character, and that character is the
    second group. *)
Theorem chapter_numeral_loses_last (x : ascii) (n : string) (c : ascii) :
  roman (String x (n ++ String c "")) = true
  \/ digits (String x (n ++ String c "")) = true ->
  chapter_match ("CHAPTER " ++ String x (n ++ String c ""))
  = Some (String x n, String c "").
Proof.
  unfold roman, digits. cbn [all_match]. rewrite !all_match_app.
  cbn [all_match]. rewrite !andb_true_r, !andb_true_iff.
  intros [(Hx & Hn & Hc)|(Hx & Hn & Hc)].
  - apply (chapter_match_without_title roman_set); auto.
  - apply (chapter_match_without_title (ASet false [IDigit])); auto.
Qed.

Lemma chapter_numeral_loses_last_witness :
  chapter_match "CHAPTER 123" = Some ("12", "3")%string.
Proof.
  apply (chapter_numeral_loses_last "1" "2" "3"). right. reflexivity.
Defined.

(** ** Records *)

(** X7.  What every record looks like, for every text of characters
    below U+0100 (the range of the model): the chapter is the integer 0
    or a non-empty run of roman numeral letters or of digits; the section
    number is not negative; the chapter title, the section title and the
    body are not empty and carry no white space at either end. *)
Theorem parsed_records_fields (text : string) :
  exists rs, parse_slpc_sections text = Some rs /\ Forall record_ok rs.
Proof. apply parse_records_ok. Qed.

(** X8.  A text without a section heading gives no record. *)
Theorem parse_without_section_headings (text : string) :
  Forall (fun raw => section_match (strip raw) = None) (split_nl text) ->
  parse_slpc_sections text = Some [].
Proof.
  intros Hnone. unfold parse_slpc_sections.
  rewrite parse_lines_sections. f_equal.
  apply sections_from_no_section.
  eapply Forall_impl; [exact Hnone |].
  cbn. intros raw Hraw. unfold classify. rewrite Hraw.
  now destruct (chapter_match (strip raw)).
Qed.

Lemma parse_without_section_headings_witness :
  parse_slpc_sections ("CHAPTER I General" ++ nl ++ "Of this Code")%string
  = Some [].
Proof.
  apply (parse_without_section_headings
           ("CHAPTER I General" ++ nl ++ "Of this Code")%string).
  change (Forall (fun raw => section_match (strip raw) = None)
            ["CHAPTER I General"; "Of this Code"]%string).
  repeat constructor.
Defined.

(** X9.  The scan invents nothing and keeps the order: number and title
    of the records are those of section headings of the text, in
    document order (headings without a body are left out). *)
Theorem parse_records_among_headings (text : string) :
  exists rs,
    parse_slpc_sections text = Some rs
    /\ sublist (map (fun r => (Section_ r, section_title r)) rs)
         (section_headings (split_nl text)).
Proof.
  unfold parse_slpc_sections. rewrite parse_lines_sections.
  eexists. split; [reflexivity |]. apply sections_from_sublist.
Qed.

(** X10.  Blank lines do not matter: the lines without those that are
    empty or white space give the same records. *)
Theorem parse_ignores_blank_lines (lines : list string) :
  parse_lines (List.filter not_blank lines) = parse_lines lines.
Proof.
  rewrite !parse_lines_sections. f_equal. apply sections_from_filter.
Qed.

(** X11.  White space at the ends of a line does not matter: the stripped
    lines give the same records. *)
Theorem parse_ignores_margins (lines : list string) :
  parse_lines (map strip lines) = parse_lines lines.
Proof.
  rewrite !parse_lines_sections. f_equal. apply sections_from_strip.
Qed.



(** X13.  Records under a chapter heading.  After a chapter heading, and
    up to the next one, the records are those the lines would give on
    their own, with the numeral of the heading as chapter and its
    stripped title as chapter title; the records of the lines before the
    heading are unchanged. *)
Theorem parse_under_chapter_heading (pre : list string) (h g1 g2 : string)
    (post : list string) :
  chapter_match (strip h) = Some (g1, g2) ->
  Forall (fun raw => chapter_match (strip raw) = None) post ->
  exists before alone,
    parse_lines pre = Some before
    /\ parse_lines post = Some alone
    /\ parse_lines (pre ++ h :: post)
       = Some (before
               ++ map (fun r => {| chapter := ChapterText g1;
                                   chapter_title := strip g2;
                                   Section_ := Section_ r;
                                   section_title := section_title r;
                                   section_desc := section_desc r |})
                    alone).
Proof.
  intros Hh Hpost. rewrite !parse_lines_sections.
  do 2 eexists. split; [reflexivity |]. split; [reflexivity |].
  f_equal. now apply sections_from_after_chapter.
Qed.

Lemma parse_under_chapter_heading_witness :
  exists before alone,
    parse_lines ["Section 1. Short title"; "This Code."]%string = Some before
    /\ parse_lines ["Section 2. Punishment"; "Every person."]%string
       = Some alone
    /\ parse_lines
         (["Section 1. Short title"; "This Code."]%string
          ++ "Chapter II: Of Punishments"%string
          :: ["Section 2. Punishment"; "Every person."]%string)
       = Some (before
               ++ map (fun r => {| chapter := ChapterText "II";
                                   chapter_title := strip "Of Punishments";
                                   Section_ := Section_ r;
                                   section_title := section_title r;
                                   section_desc := section_desc r |})
                    alone).
Proof.
  apply (parse_under_chapter_heading
           ["Section 1. Short title"; "This Code."]%string
           "Chapter II: Of Punishments" "II" "Of Punishments"
           ["Section 2. Punishment"; "Every person."]%string).
  - reflexivity.
  - repeat constructor.
Defined.

(** X14.  Texts in parts.  When the second of two texts starts with a
    chapter heading, the records of the two texts joined by a line break
    are the records of the first followed by the records of the
    second. *)
Theorem parse_at_chapter_heading (a b h : string) (rest : list string)
    (gs : string * string) :
  split_nl b = h :: rest ->
  chapter_match (strip h) = Some gs ->
  exists ra rb,
    parse_slpc_sections a = Some ra
    /\ parse_slpc_sections b = Some rb
    /\ parse_slpc_sections (a ++ nl ++ b)%string = Some (ra ++ rb).
Proof.
  intros Hb Hh. apply parse_app_chapter. rewrite Hb.
  unfold classify. now rewrite Hh.
Qed.

Lemma parse_at_chapter_heading_witness :
  exists ra rb,
    parse_slpc_sections ("Section 1. Short title" ++ nl ++ "This Code.")%string
    = Some ra
    /\ parse_slpc_sections
         ("CHAPTER II Of Punishments" ++ nl ++ "Section 2. Punishment"
            ++ nl ++ "Every person.")%string
       = Some rb
    /\ parse_slpc_sections
         (("Section 1. Short title" ++ nl ++ "This Code.") ++ nl
            ++ "CHAPTER II Of Punishments" ++ nl ++ "Section 2. Punishment"
            ++ nl ++ "Every person.")%string
       = Some (ra ++ rb).
Proof.
  apply (parse_at_chapter_heading
           ("Section 1. Short title" ++ nl ++ "This Code.")%string
           ("CHAPTER II Of Punishments" ++ nl ++ "Section 2. Punishment"
              ++ nl ++ "Every person.")%string
           "CHAPTER II Of Punishments"
           ["Section 2. Punishment"; "Every person."]%string
           ("II", "Of Punishments")%string);
    reflexivity.
Defined.

(** ** Extraction *)

(** X15.  The extracted text, line by line: when every page has a text,
    the lines of what [extract_text_from_pdf] returns are the lines of
    the pages, one page after the other, and one empty line at the
    end. *)
Theorem extracted_lines (pdfs : gmap string pdf_reading) (path : string)
    (pages : list string) :
  pdfs !! path = Some (Ok (map Some pages)) ->
  exists text,
    extract_text_from_pdf pdfs path = Ok text
    /\ split_nl text = page_lines pages ++ [EmptyString].
Proof. apply extract_text_lines. Qed.

Lemma extracted_lines_witness :
  exists text,
    extract_text_from_pdf
      {["code.pdf"%string :=
          Ok [Some ("one" ++ nl ++ "two")%string; Some "three"%string]]}
      "code.pdf"
    = Ok text
    /\ split_nl text
       = page_lines [("one" ++ nl ++ "two")%string; "three"%string]
         ++ [EmptyString].
Proof.
  apply (extracted_lines _ "code.pdf"
           [("one" ++ nl ++ "two")%string; "three"%string]).
  reflexivity.
Defined.

(** X16.  A page without text: when [extract_text()] gives [None] for a
    page, [extract_text_from_pdf] raises [TypeError], whatever the pages
    before and after hold. *)
Theorem extract_page_without_text (pdfs : gmap string pdf_reading)
    (path : string) (before : list string) (after : list (option string)) :
  pdfs !! path = Some (Ok (map Some before ++ None :: after)) ->
  extract_text_from_pdf pdfs path = Raise TypeError.
Proof.
  intros Hpdf. unfold extract_text_from_pdf. rewrite Hpdf. cbn.
  apply add_pages_none.
Qed.

Lemma extract_page_without_text_witness :
  extract_text_from_pdf
    {["code.pdf"%string := Ok [Some "one"%string; None; Some "three"%string]]}
    "code.pdf"
  = Raise TypeError.
Proof.
  apply (extract_page_without_text _ "code.pdf" ["one"%string]
           [Some "three"%string]).
  reflexivity.
Defined.

(** X17.  Page breaks are line breaks to the scan: the records of the
    extracted text are those of the lines of the pages, one page after
    the other, so a body that runs over a page break is one body. *)
Theorem parse_extracted_pages (pdfs : gmap string pdf_reading) (path : string)
    (pages : list string) :
  pdfs !! path = Some (Ok (map Some pages)) ->
  exists text,
    extract_text_from_pdf pdfs path = Ok text
    /\ parse_slpc_sections text = parse_lines (page_lines pages).
Proof. apply extract_then_parse. Qed.

Lemma parse_extracted_pages_witness :
  exists text,
    extract_text_from_pdf
      {["code.pdf"%string :=
          Ok [Some ("Section 1. Short title" ++ nl ++ "This Code may")%string;
              Some "be called the Penal Code."%string]]}
      "code.pdf"
    = Ok text
    /\ parse_slpc_sections text
       = parse_lines
           (page_lines
              [("Section 1. Short title" ++ nl ++ "This Code may")%string;
               "be called the Penal Code."%string]).
Proof.
  apply (parse_extracted_pages _ "code.pdf"
           [("Section 1. Short title" ++ nl ++ "This Code may")%string;
            "be called the Penal Code."%string]).
  reflexivity.
Defined.

(** X18.  [main] writes nothing when no line of the PDF is a section
    heading: the files are left as they were. *)
Theorem main_without_section_headings (pdfs : gmap string pdf_reading)
    (files : gmap string string) (pages : list string) :
  pdfs !! PDF_PATH = Some (Ok (map Some pages)) ->
  Forall (fun raw => section_match (strip raw) = None) (page_lines pages) ->
  main pdfs files = Some (Ok files).
Proof.
  intros Hpdf Hnone. apply (main_without_sections _ _ pages Hpdf).
  eapply Forall_impl; [exact Hnone |].
  cbn. intros raw Hraw. unfold classify. rewrite Hraw.
  now destruct (chapter_match (strip raw)).
Qed.

Lemma main_without_section_headings_witness :
  main {[PDF_PATH := Ok [Some "CHAPTER I General"%string]]} ∅ = Some (Ok ∅).
Proof.
  apply (main_without_section_headings _ ∅ ["CHAPTER I General"%string]).
  - reflexivity.
  - change (Forall (fun raw => section_match (strip raw) = None)
              ["CHAPTER I General"%string]).
    repeat constructor.
Defined.

(** ** The builder *)

(** X19.  Which corpora [prepare_documents] accepts: a list is turned
    into documents, one per entry, exactly when every entry is a
    dictionary with the keys Section, section_title, section_desc,
    chapter and chapter_title. *)
Theorem prepare_documents_readable (entries : list pyval) :
  forallb readable entries = true
  <-> exists docs,
        prepare_documents (PyList entries) = Ok docs
        /\ length docs = length entries.
Proof. apply comprehension_readable. Qed.

(** X20.  The first entry that lacks a key stops [prepare_documents]: it
    raises [KeyError] for the first key the entry lacks, in the order
    Section, section_title, section_desc, chapter, chapter_title,
    whatever the entries after it hold. *)
Theorem prepare_documents_missing_key (good : list pyval)
    (d : list (string * pyval)) (rest : list pyval) (key : string) :
  forallb readable good = true ->
  missing_key d = Some key ->
  prepare_documents (PyList (good ++ PyDict d :: rest)) = Raise (KeyError key).
Proof.
  intros Hgood Hkey. apply comprehension_first_error; [exact Hgood |].
  pose proof (prepare_document_missing d) as Hd. now rewrite Hkey in Hd.
Qed.

Lemma prepare_documents_missing_key_witness :
  prepare_documents
    (PyList ([record_dict short_title]
             ++ PyDict [("Section", PyInt 2); ("section_title", PyStr "Theft");
                        ("chapter_title", PyStr "General")]
             :: [PyNone]))
  = Raise (KeyError "section_desc").
Proof.
  apply (prepare_documents_missing_key [record_dict short_title]
           [("Section", PyInt 2); ("section_title", PyStr "Theft");
            ("chapter_title", PyStr "General")]
           [PyNone] "section_desc");
    reflexivity.
Defined.

(** X21.  The guard of the builder.  When one of SLPC_JSON_PATH,
    PERSIST_DIRECTORY_PATH and SLPC_COLLECTION_NAME is unset or empty,
    [build_slpc_vectordb] raises [EnvironmentError] before the corpus
    file is opened and before the store is called, whatever the files
    and the index hold. *)
Theorem build_configuration_error {V : VectorStore}
    (env : gmap string string) (w : world V) :
  forallb is_set [env !! "SLPC_JSON_PATH"; env !! "PERSIST_DIRECTORY_PATH";
                  env !! "SLPC_COLLECTION_NAME"] = false ->
  build_slpc_vectordb env w = (Raise EnvironmentError, w).
Proof. apply build_requires_configuration. Qed.

Lemma build_configuration_error_witness :
  build_slpc_vectordb (<["SLPC_COLLECTION_NAME" := ""%string]> full_env)
    (empty_world adding_store ∅)
  = (Raise EnvironmentError, empty_world adding_store ∅).
Proof.
  apply (build_configuration_error (V := adding_store)
           (<["SLPC_COLLECTION_NAME" := ""%string]> full_env)
           (empty_world adding_store ∅)).
  reflexivity.
Defined.

(** X22.  A corpus that is missing or cannot be prepared stops the build
    before the store is called.  With the three variables set: when
    there is no corpus file the build ends with [FileNotFoundError]; when
    the file holds a list whose first unreadable entry is a dictionary
    lacking a key, it ends with the [KeyError] of that key.  In both
    cases the index is as it was. *)
Theorem build_fails_before_store {V : VectorStore}
    (env : gmap string string) (w : world V) (path dir name : string) :
  env !! "SLPC_JSON_PATH" = Some path ->
  env !! "PERSIST_DIRECTORY_PATH" = Some dir ->
  env !! "SLPC_COLLECTION_NAME" = Some name ->
  truthy path = true -> truthy dir = true -> truthy name = true ->
  (files w !! path = None ->
   build_slpc_vectordb env w
   = (Raise FileNotFoundError,
      {| files := files w; index := index w;
         io_log := ReadFile path :: io_log w |}))
  /\ (forall good d rest key,
        load_slpc_data path (files w)
        = Ok (PyList (good ++ PyDict d :: rest)) ->
        forallb readable good = true ->
        missing_key d = Some key ->
        build_slpc_vectordb env w
        = (Raise (KeyError key),
           {| files := files w; index := index w;
              io_log := ReadFile path :: io_log w |})).
Proof.
  intros Hpath Hdir Hname Hp Hd Hn. split.
  - intros Hfile.
    apply (build_stops_before_store env w path dir name); auto.
    unfold load_slpc_data. now rewrite Hfile.
  - intros good d rest key Hload Hgood Hkey.
    apply (build_stops_before_store env w path dir name); auto.
    rewrite Hload. cbn.
    apply comprehension_first_error; [exact Hgood |].
    pose proof (prepare_document_missing d) as Hdoc.
    now rewrite Hkey in Hdoc.
Qed.

Lemma build_fails_before_store_witness :
  build_slpc_vectordb full_env
    {| files :=
         save_to_json
           (PyList [record_dict short_title; PyDict [("Section", PyInt 2)]])
           "slpc.json" ∅;
       index := (∅ : store (VectorStore := adding_store));
       io_log := [] |}
  = (Raise (KeyError "section_title"),
     {| files :=
          save_to_json
            (PyList [record_dict short_title; PyDict [("Section", PyInt 2)]])
            "slpc.json" ∅;
        index := (∅ : store (VectorStore := adding_store));
        io_log := [ReadFile "slpc.json"] |}).
Proof.
  apply (proj2
           (build_fails_before_store (V := adding_store) full_env
              {| files :=
                   save_to_json
                     (PyList [record_dict short_title;
                              PyDict [("Section", PyInt 2)]])
                     "slpc.json" ∅;
                 index := (∅ : store (VectorStore := adding_store));
                 io_log := [] |}
              "slpc.json" "chroma_db" "slpc"
              eq_refl eq_refl eq_refl eq_refl eq_refl eq_refl)
           [record_dict short_title] [("Section", PyInt 2)] []
           "section_title").
  - vm_compute. reflexivity.
  - reflexivity.
  - reflexivity.
Defined.

(** X23.  From the PDF to the store.  When [main] has written the corpus
    file from the pages of the PDF and the builder is configured to read
    that file, the documents the builder hands to the store are those of
    the records of the pages, in order; the build succeeds or fails as
    the store does. *)
Theorem build_after_extraction {V : VectorStore}
    (pdfs : gmap string pdf_reading) (pages : list string)
    (env : gmap string string) (dir name : string) (w : world V)
    (files' : gmap string string) :
  pdfs !! PDF_PATH = Some (Ok (map Some pages)) ->
  main pdfs (files w) = Some (Ok files') ->
  files' <> files w ->
  env !! "SLPC_JSON_PATH" = Some OUTPUT_PATH ->
  env !! "PERSIST_DIRECTORY_PATH" = Some dir ->
  env !! "SLPC_COLLECTION_NAME" = Some name ->
  truthy dir = true -> truthy name = true ->
  exists rs,
    parse_lines (page_lines pages) = Some rs
    /\ build_slpc_vectordb env
         {| files := files'; index := index w; io_log := io_log w |}
       = match from_documents (map document_of rs) dir name (index w) with
         | Ok s' =>
             (Ok tt,
              {| files := files'; index := s';
                 io_log := StoreWrite dir name :: ReadFile OUTPUT_PATH
                             :: io_log w |})
         | Raise e =>
             (Raise e,
              {| files := files'; index := index w;
                 io_log := StoreWrite dir name :: ReadFile OUTPUT_PATH
                             :: io_log w |})
         end.
Proof. apply build_after_main. Qed.

Lemma build_after_extraction_witness :
  exists rs,
    parse_lines
      (page_lines
         [("Section 1. Short title" ++ nl ++ "This Code may")%string;
          "be called the Penal Code."%string])
    = Some rs
    /\ build_slpc_vectordb full_env
         {| files :=
              save_to_json
                (records_value
                   [{| chapter := ChapterNum 0; chapter_title := "Unknown";
                       Section_ := 1; section_title := "Short title";
                       section_desc :=
                         "This Code may be called the Penal Code." |}])
                OUTPUT_PATH ∅;
            index := index (empty_world adding_store ∅);
            io_log := io_log (empty_world adding_store ∅) |}
       = match
           from_documents (map document_of rs) "chroma_db" "slpc"
             (index (empty_world adding_store ∅))
         with
         | Ok s' =>
             (Ok tt,
              {| files :=
                   save_to_json
                     (records_value
                        [{| chapter := ChapterNum 0;
                            chapter_title := "Unknown";
                            Section_ := 1; section_title := "Short title";
                            section_desc :=
                              "This Code may be called the Penal Code." |}])
                     OUTPUT_PATH ∅;
                 index := s';
                 io_log := StoreWrite "chroma_db" "slpc"
                             :: ReadFile OUTPUT_PATH
                             :: io_log (empty_world adding_store ∅) |})
         | Raise e =>
             (Raise e,
              {| files :=
                   save_to_json
                     (records_value
                        [{| chapter := ChapterNum 0;
                            chapter_title := "Unknown";
                            Section_ := 1; section_title := "Short title";
                            section_desc :=
                              "This Code may be called the Penal Code." |}])
                     OUTPUT_PATH ∅;
                 index := index (empty_world adding_store ∅);
                 io_log := StoreWrite "chroma_db" "slpc"
                             :: ReadFile OUTPUT_PATH
                             :: io_log (empty_world adding_store ∅) |})
         end.
Proof.
  apply (build_after_extraction (V := adding_store)
           {[PDF_PATH :=
               Ok [Some ("Section 1. Short title" ++ nl
                           ++ "This Code may")%string;
                   Some "be called the Penal Code."%string]]}
           [("Section 1. Short title" ++ nl ++ "This Code may")%string;
            "be called the Penal Code."%string]
           full_env "chroma_db" "slpc" (empty_world adding_store ∅)).
  - reflexivity.
  - vm_compute. reflexivity.
  - apply insert_non_empty.
  - reflexivity.
  - reflexivity.
  - reflexivity.
  - reflexivity.
  - reflexivity.
Defined.

(** ** The search tool *)

(** X24.  The guard of the search tool.  When PERSIST_DIRECTORY_PATH is
    unset or empty, [search_slpc_sections] raises [EnvironmentError]
    before the embedding model is made and before the store is opened,
    whatever the query and the index are. *)
Theorem search_configuration_error {V : VectorStore}
    (env : gmap string string) (query : string) (w : world V) :
  is_set (env !! "PERSIST_DIRECTORY_PATH") = false ->
  search_slpc_sections env query w = (Raise EnvironmentError, w).
Proof. apply search_requires_location. Qed.

Lemma search_configuration_error_witness :
  search_slpc_sections (<["PERSIST_DIRECTORY_PATH" := ""%string]> full_env)
    "theft" (empty_world adding_store ∅)
  = (Raise EnvironmentError, empty_world adding_store ∅).
Proof.
  apply (search_configuration_error (V := adding_store)
           (<["PERSIST_DIRECTORY_PATH" := ""%string]> full_env) "theft"
           (empty_world adding_store ∅)).
  reflexivity.
Defined.

(** X25.  A hit tells which record it was made from: two records whose
    documents give the same hit are the same record. *)
Theorem hit_identifies_record (r r' : SectionRecord) :
  hit_of (document_of r) = hit_of (document_of r') -> r = r'.
Proof. apply hit_of_document_record. Qed.

Lemma hit_identifies_record_witness :
  short_title
  = {| chapter := ChapterText "I"; chapter_title := "General";
       Section_ := 1; section_title := "Short title";
       section_desc := "This Code may be called the Penal Code." |}.
Proof.
  apply (hit_identifies_record short_title
           {| chapter := ChapterText "I"; chapter_title := "General";
              Section_ := 1; section_title := "Short title";
              section_desc := "This Code may be called the Penal Code." |}).
  reflexivity.
Defined.
